(** * rl_trader: the DQN training controller

    A verification development for [src/learning/learning_controller.py].

    The module defines one procedure, [train_model], which wires a trading
    environment and a DQN agent together: it strips the label column from the
    market data, builds the two collaborators, runs a fixed number of episodes
    of a bounded step loop, and saves the trained model under a time-stamped
    path.  The environment, the agent, pandas and the system clock are
    external to the module; they are modelled as interfaces whose operations
    may mutate their own state and may raise.

    The embedding is shallow: [train_model] is a function in a state-and-error
    monad that also emits the chronological trace of collaborator calls. *)

From Stdlib Require Import Ascii DecimalString.
From stdpp Require Import base decidable option numbers list strings gmap.

Set Default Proof Using "Type".

Local Open Scope string_scope.
Local Open Scope nat_scope.
Local Open Scope list_scope.

(** ** Python results *)

(** An exception object: its class name and its message. *)
Inductive exn : Type := PyExn (cls : string) (msg : string).

Definition KeyError (msg : string) : exn := PyExn "KeyError" msg.
Definition AttributeError (msg : string) : exn := PyExn "AttributeError" msg.
Definition ReferenceError (msg : string) : exn := PyExn "ReferenceError" msg.
Definition FileNotFoundError (msg : string) : exn := PyExn "FileNotFoundError" msg.
Definition DeserializationError (msg : string) : exn :=
  PyExn "DeserializationError" msg.

(** What a Python call does: it returns a value or raises. *)
Inductive outcome (X : Type) : Type :=
| Returned (x : X)
| Raised (e : exn).
Arguments Returned {X} x.
Arguments Raised {X} e.

Definition raised_exn {X} (o : outcome X) : option exn :=
  match o with
  | Returned _ => None
  | Raised e => Some e
  end.

(** ** pandas data frames *)

(** A cell of a frame; [NaN] is the floating-point "not a number" sentinel. *)
Inductive cell : Type :=
| Num (z : Z)
| NaN.

(** A frame is a row index and an ordered list of labelled columns.  Labels
    may repeat, so the columns are an association list. *)
Record DataFrame : Type := mkDataFrame {
  index : list nat;
  columns : list (string * list cell)
}.

Definition labels (df : DataFrame) : list string := (columns df).*1.

Module DataFrame_.

(** [DataFrame.drop(columns=labels)] with pandas' defaults
    ([inplace=False], [errors="raise"]): every requested label must name a
    column, otherwise [KeyError] is raised; the result is a new frame
    without the columns carrying one of the labels.  The receiver is not
    changed. *)
Definition quote (label : string) : string := "'" +:+ label +:+ "'".

Definition drop (cols : list string) (df : DataFrame) : outcome DataFrame :=
  match filter (λ c, c ∉ labels df) cols with
  | [] => Returned (mkDataFrame (index df)
                      (filter (λ col, col.1 ∉ cols) (columns df)))
  | missing =>
      Raised (KeyError ("[" +:+ String.concat ", " (quote <$> missing) +:+
                        "] not found in axis"))
  end.

(** Two frames that differ at most in the cells of the columns labelled
    [label]. *)
Definition same_but (label : string) (df1 df2 : DataFrame) : Prop :=
  index df1 = index df2 ∧
  Forall2 (λ c1 c2, c1.1 = c2.1 ∧ (c1.1 ≠ label → c1.2 = c2.2))
          (columns df1) (columns df2).

End DataFrame_.

(** ** Wall-clock time *)

Record datetime : Type := mkDatetime {
  year : nat; month : nat; day : nat;
  hour : nat; minute : nat; second : nat
}.

(** Decimal rendering of a natural number, as [str(n)] and [f"{n}"] do. *)
Definition decimal (n : nat) : string := NilZero.string_of_uint (Nat.to_uint n).

(** Left-pad with zeros up to [width] characters (C's [%0<width>d]). *)
Definition zfill (width : nat) (s : string) : string :=
  String.concat "" (replicate (width - String.length s) "0") +:+ s.

(** [d.strftime("%Y-%m-%d_%H-%M-%S")] *)
Definition strftime (d : datetime) : string :=
  zfill 4 (decimal (year d)) +:+ "-" +:+ zfill 2 (decimal (month d)) +:+ "-" +:+
  zfill 2 (decimal (day d)) +:+ "_" +:+ zfill 2 (decimal (hour d)) +:+ "-" +:+
  zfill 2 (decimal (minute d)) +:+ "-" +:+ zfill 2 (decimal (second d)).

(** A reading of the clock that [datetime.now()] can produce: a date with a
    four-digit year. *)
Definition valid_datetime (d : datetime) : Prop :=
  10 * 100 ≤ year d < 100 * 100 ∧ 1 ≤ month d ≤ 12 ∧ 1 ≤ day d ≤ 31 ∧
  hour d ≤ 23 ∧ minute d ≤ 59 ∧ second d ≤ 59.

(** Patterns for fixed-width text: ["d"] stands for one decimal digit, any
    other character for itself. *)
Definition is_digit (c : ascii) : bool :=
  (48 <=? nat_of_ascii c) && (nat_of_ascii c <=? 57).

Fixpoint matches (pattern s : string) : bool :=
  match pattern, s with
  | EmptyString, EmptyString => true
  | String p pattern', String c s' =>
      (if Ascii.eqb p "d" then is_digit c else Ascii.eqb p c) &&
      matches pattern' s'
  | _, _ => false
  end.



(** ** Module constants *)

Definition NUM_EPISODES : nat := 10.
Definition MAX_STEPS : nat := 10.
Definition BATCH_SIZE : nat := 64.

(** References to frames in the object store. *)
Abbreviation loc := nat (only parsing).

(** ** The collaborators *)

(** [W] is the state of everything outside the controller that is not a data
    frame: the environment object, the agent object with its replay memory
    and weights, the file system, the clock.  A collaborator operation takes
    the world to a new world and returns or raises; an exception does not
    undo what the operation did before raising.

    An environment holds the frame it was constructed from, so its
    operations also read and may write that frame. *)
Record EnvironmentClass (State Action Reward W : Type) : Type := {
  (** [TradingEnvironment(data)] *)
  TradingEnvironment : DataFrame → W → outcome unit * DataFrame * W;
  (** [env._get_state()] *)
  _get_state : DataFrame → W → outcome State * DataFrame * W;
  (** [env.reset()] *)
  reset : DataFrame → W → outcome State * DataFrame * W;
  (** [env.step(action)] *)
  step : Action → DataFrame → W → outcome (State * Reward * bool) * DataFrame * W
}.
Arguments TradingEnvironment {State Action Reward W}.
Arguments _get_state {State Action Reward W}.
Arguments reset {State Action Reward W}.
Arguments step {State Action Reward W}.

Record DQNClass (State Action Reward W : Type) : Type := {
  (** [dqn.DQN(state_size, action_size)] *)
  DQN : nat → nat → W → outcome unit * W;
  (** [model.act(state)] *)
  act : State → W → outcome Action * W;
  (** [model.remember(state, action, reward, next_state, done)] *)
  remember : State → Action → Reward → State → bool → W → outcome unit * W;
  (** [len(model.memory)] *)
  memory_len : W → nat;
  (** [model.replay(batch_size)] *)
  replay : nat → W → outcome unit * W;
  (** [model.save_model(path)] *)
  save_model : string → W → outcome unit * W
}.
Arguments DQN {State Action Reward W}.
Arguments act {State Action Reward W}.
Arguments remember {State Action Reward W}.
Arguments memory_len {State Action Reward W}.
Arguments replay {State Action Reward W}.
Arguments save_model {State Action Reward W}.

(** ** The controller *)

Section Controller.

Context {Feature Action Reward W : Type}.

(** A state is a vector of features; [len(state)] is its length. *)
Abbreviation State := (list Feature).

(** The environment class, the agent class, and [datetime.now()], which
    reads the clock kept in the world. *)
Variable env_class : EnvironmentClass State Action Reward W.
Variable dqn : DQNClass State Action Reward W.
Variable datetime_now : W → datetime.

(** *** Call traces *)

(** One entry per call that leaves the controller, with its arguments and
    what it returned or raised.  A frame is passed by reference; the entry
    of the environment's constructor also records the frame the reference
    denotes when the call is made. *)
Inductive Event : Type :=
| EvDrop (data : loc) (cols : list string) (ret : outcome loc)
| EvTradingEnvironment (data : loc) (frame : option DataFrame)
                       (ret : outcome unit)
| EvGetState (ret : outcome State)
| EvDQN (state_size action_size : nat) (ret : outcome unit)
| EvReset (ret : outcome State)
| EvAct (state : State) (ret : outcome Action)
| EvStep (action : Action) (ret : outcome (State * Reward * bool))
| EvRemember (state : State) (action : Action) (reward : Reward)
             (next_state : State) (done : bool) (ret : outcome unit)
| EvReplay (batch_size : nat) (ret : outcome unit)
| EvNow (ret : datetime)
| EvSaveModel (path : string) (ret : outcome unit).

(** A trace entry pairs the call with the world it left behind. *)
Abbreviation Entry := (Event * W)%type.

Definition event_raised (ev : Event) : option exn :=
  match ev with
  | EvDrop _ _ ret => raised_exn ret
  | EvTradingEnvironment _ _ ret => raised_exn ret
  | EvGetState ret => raised_exn ret
  | EvDQN _ _ ret => raised_exn ret
  | EvReset ret => raised_exn ret
  | EvAct _ ret => raised_exn ret
  | EvStep _ ret => raised_exn ret
  | EvRemember _ _ _ _ _ ret => raised_exn ret
  | EvReplay _ ret => raised_exn ret
  | EvNow _ => None
  | EvSaveModel _ ret => raised_exn ret
  end.

(** *** The monad *)

(** The store: the frames on the heap (a reference is an index; frames are
    never freed), the world of the collaborators, and the lines printed. *)
Record Store : Type := mkStore {
  frames : list DataFrame;
  world : W;
  console : list string
}.

(** A run: the result, the final store, and the calls made, oldest first. *)
Record Run (X : Type) : Type := mkRun {
  res : outcome X;
  final : Store;
  trace : list Entry
}.
Arguments mkRun {X}.
Arguments res {X}.
Arguments final {X}.
Arguments trace {X}.

Definition M (X : Type) : Type := Store → Run X.

(** Sequencing.  There is no handler anywhere in the module: when the
    first computation raises, the second one does not run. *)
Global Instance M_ret : MRet M := λ X x σ, mkRun (Returned x) σ [].

Global Instance M_bind : MBind M := λ X Y k m σ,
  let r1 := m σ in
  match res r1 with
  | Raised e => mkRun (Raised e) (final r1) (trace r1)
  | Returned x =>
      let r2 := k x (final r1) in
      mkRun (res r2) (final r2) (trace r1 ++ trace r2)
  end.

(** [print(line)] *)
Definition print (line : string) : M unit := λ σ,
  mkRun (Returned tt) (mkStore (frames σ) (world σ) (console σ ++ [line])) [].

(** A call of an agent method (or of the agent's constructor). *)
Definition call_model {X} (ev : outcome X → Event) (op : W → outcome X * W)
  : M X := λ σ,
  let '(o, w) := op (world σ) in
  mkRun o (mkStore (frames σ) w (console σ)) [(ev o, w)].

(** A call of a method of the environment built on the frame at [env]. *)
Definition call_env {X} (env : loc) (ev : outcome X → Event)
    (op : DataFrame → W → outcome X * DataFrame * W) : M X := λ σ,
  match frames σ !! env with
  | Some df =>
      let '(o, df', w) := op df (world σ) in
      mkRun o (mkStore (<[env := df']> (frames σ)) w (console σ)) [(ev o, w)]
  | None =>
      let o := Raised (ReferenceError "no such frame") in
      mkRun o σ [(ev o, world σ)]
  end.

(** [data.drop(columns=cols)]: allocates the new frame. *)
Definition drop (data : loc) (cols : list string) : M loc := λ σ,
  let o :=
    match frames σ !! data with
    | Some df =>
        match DataFrame_.drop cols df with
        | Returned df' => Returned df'
        | Raised e => Raised e
        end
    | None => Raised (AttributeError "object has no attribute 'drop'")
    end in
  match o with
  | Returned df' =>
      let l := length (frames σ) in
      mkRun (Returned l) (mkStore (frames σ ++ [df']) (world σ) (console σ))
            [(EvDrop data cols (Returned l), world σ)]
  | Raised e => mkRun (Raised e) σ [(EvDrop data cols (Raised e), world σ)]
  end.

(** The frame a reference denotes (a ghost read, for the trace). *)
Definition frame_at (l : loc) : M (option DataFrame) := λ σ,
  mkRun (Returned (frames σ !! l)) σ [].

(** [datetime.now()] *)
Definition now : M datetime := λ σ,
  let d := datetime_now (world σ) in
  mkRun (Returned d) σ [(EvNow d, world σ)].

(** [len(model.memory)] *)
Definition len_memory : M nat := λ σ,
  mkRun (Returned (memory_len dqn (world σ))) σ [].

(** *** train_model *)

(** Line 92: [f"src/learning/trained_models/dqn_model_{timestamp}.h5"] *)
Definition model_path (timestamp : string) : string :=
  "src/learning/trained_models/dqn_model_" +:+ timestamp +:+ ".h5".

Section Config.

(** The module globals are read when [train_model] runs; the loops are
    written over the values they hold then. *)
Variables num_episodes max_steps batch_size : nat.

(** One iteration of the step loop, lines 70-80: the new current state
    and the termination flag. *)
Definition step_body (env : loc) (state : State) : M (State * bool) :=
  action ← call_model (EvAct state) (act dqn state);
  '(next_state, reward, done) ←
      call_env env (EvStep action) (step env_class action);
  call_model (EvRemember state action reward next_state done)
             (remember dqn state action reward next_state done);;
  n ← len_memory;
  (if (batch_size <? n)%nat
   then call_model (EvReplay batch_size) (replay dqn batch_size)
   else mret tt);;
  mret (next_state, done).

(** [for step in range(MAX_STEPS)], lines 68-83, with [todo] iterations
    left and [i] the value of [step]; the result is the current state
    when the loop is left. *)
Fixpoint step_loop (env : loc) (todo i : nat) (state : State) : M State :=
  match todo with
  | 0 => mret state
  | S todo' =>
      print (String (Ascii.ascii_of_nat 9) "Step " +:+ decimal (i + 1)%nat +:+ " of " +:+
             decimal max_steps);;
      '(state, done) ← step_body env state;
      if done : bool then mret state else step_loop env todo' (S i) state
  end.

(** [for episode in range(NUM_EPISODES)], lines 64-83. *)
Fixpoint episode_loop (env : loc) (todo i : nat) : M unit :=
  match todo with
  | 0 => mret tt
  | S todo' =>
      print ("Starting episode " +:+ decimal (i + 1)%nat +:+ " of " +:+
             decimal num_episodes);;
      state ← call_env env EvReset (reset env_class);
      step_loop env max_steps 0 state;;
      episode_loop env todo' (S i)
  end.

Definition train_model_with (data : loc) : M string :=
  data ← drop data ["target"];
  print "setting up RL learning environment...";;
  let env := data in
  frame ← frame_at data;
  call_env env (EvTradingEnvironment data frame)
           (TradingEnvironment env_class);;
  state0 ← call_env env EvGetState (_get_state env_class);
  let state_size := length state0 in
  let action_size := 3 in
  print "loading DQN model...";;
  call_model (EvDQN state_size action_size) (DQN dqn state_size action_size);;
  print "running simulation...";;
  episode_loop env num_episodes 0;;
  now ← now;
  let timestamp := strftime now in
  let path := model_path timestamp in
  call_model (EvSaveModel path) (save_model dqn path);;
  print "model trained and saved";;
  mret path.

End Config.

Definition train_model (data : loc) : M string :=
  train_model_with NUM_EPISODES MAX_STEPS BATCH_SIZE data.

End Controller.

Arguments mkRun {Feature Action Reward W X}.
Arguments res {Feature Action Reward W X}.
Arguments final {Feature Action Reward W X}.
Arguments trace {Feature Action Reward W X}.

(** ** The shape of a run *)

(** The control flow the module documents, as a grammar of call traces: a
    trace is the set-up calls, then the episodes, then the save.  Each
    predicate is indexed by how the traced computation ended, so the grammar
    also covers the runs cut short by an exception. *)

Section Shape.

Context {Feature Action Reward W : Type}.
Abbreviation State := (list Feature).
Abbreviation Entry' := (@Event Feature Action Reward * W)%type.

Variable env_class : EnvironmentClass State Action Reward W.
Variable dqn : DQNClass State Action Reward W.
Variable datetime_now : W → datetime.
Variables num_episodes max_steps batch_size : nat.

(** The environment, stepped with [a], returned [(s', r, d)] and left the
    world [w]. *)
Definition env_stepped (a : Action) (s' : State) (r : Reward) (d : bool)
    (w : W) : Prop :=
  ∃ df w0 df', step env_class a df w0 = (Returned (s', r, d), df', w).

(** One iteration of the step loop: act on the current state, step the
    environment with that action, remember the transition, replay when the
    memory has grown past the batch size; the iteration yields the next
    state and the termination flag. *)
Inductive step_trace (s : State) : outcome (State * bool) → list Entry' → Prop :=
| step_act_raises e w1 :
    step_trace s (Raised e) [(EvAct s (Raised e), w1)]
| step_env_raises a w1 e w2 :
    step_trace s (Raised e)
      [(EvAct s (Returned a), w1); (EvStep a (Raised e), w2)]
| step_remember_raises a w1 s' r d w2 e w3 :
    env_stepped a s' r d w2 →
    step_trace s (Raised e)
      [(EvAct s (Returned a), w1); (EvStep a (Returned (s', r, d)), w2);
       (EvRemember s a r s' d (Raised e), w3)]
| step_replay_raises a w1 s' r d w2 w3 e w4 :
    env_stepped a s' r d w2 →
    batch_size < memory_len dqn w3 →
    step_trace s (Raised e)
      [(EvAct s (Returned a), w1); (EvStep a (Returned (s', r, d)), w2);
       (EvRemember s a r s' d (Returned tt), w3);
       (EvReplay batch_size (Raised e), w4)]
| step_with_replay a w1 s' r d w2 w3 w4 :
    env_stepped a s' r d w2 →
    batch_size < memory_len dqn w3 →
    step_trace s (Returned (s', d))
      [(EvAct s (Returned a), w1); (EvStep a (Returned (s', r, d)), w2);
       (EvRemember s a r s' d (Returned tt), w3);
       (EvReplay batch_size (Returned tt), w4)]
| step_without_replay a w1 s' r d w2 w3 :
    env_stepped a s' r d w2 →
    memory_len dqn w3 ≤ batch_size →
    step_trace s (Returned (s', d))
      [(EvAct s (Returned a), w1); (EvStep a (Returned (s', r, d)), w2);
       (EvRemember s a r s' d (Returned tt), w3)].

(** At most [cap] iterations from state [s]: the loop stops when the cap is
    reached, when an iteration reports termination, or on an exception. *)
Inductive steps_trace : nat → State → outcome State → list Entry' → Prop :=
| steps_cap s :
    steps_trace 0 s (Returned s) []
| steps_raise cap s e t :
    step_trace s (Raised e) t →
    steps_trace (S cap) s (Raised e) t
| steps_break cap s s' t :
    step_trace s (Returned (s', true)) t →
    steps_trace (S cap) s (Returned s') t
| steps_continue cap s s' t o t' :
    step_trace s (Returned (s', false)) t →
    steps_trace cap s' o t' →
    steps_trace (S cap) s o (t ++ t').

(** A completed episode: one reset, then the step loop from the state the
    reset returned. *)
Inductive episode_trace : list Entry' → Prop :=
| episode_intro s w s_end t :
    steps_trace max_steps s (Returned s_end) t →
    episode_trace ((EvReset (Returned s), w) :: t).

(** [n] episodes in a row, or fewer when one of them raises. *)
Inductive episodes_trace : nat → outcome unit → list Entry' → Prop :=
| episodes_nil :
    episodes_trace 0 (Returned tt) []
| episodes_reset_raises n e w :
    episodes_trace (S n) (Raised e) [(EvReset (Raised e), w)]
| episodes_steps_raise n s w e t :
    steps_trace max_steps s (Raised e) t →
    episodes_trace (S n) (Raised e) ((EvReset (Returned s), w) :: t)
| episodes_cons n ep o t :
    episode_trace ep →
    episodes_trace n o t →
    episodes_trace (S n) o (ep ++ t).

(** The four set-up calls of a run that reaches the simulation. *)
Definition setup_trace (data env : loc) (w0 : W) (frame : option DataFrame)
    (w1 : W) (state0 : State) (w2 w3 : W) : list Entry' :=
  [(EvDrop data ["target"] (Returned env), w0);
   (EvTradingEnvironment env frame (Returned tt), w1);
   (EvGetState (Returned state0), w2);
   (EvDQN (length state0) 3 (Returned tt), w3)].

(** The two closing calls: the clock is read, then the model is saved
    under the path made from that reading. *)
Definition save_trace (w4 : W) (ret : outcome unit) (w5 : W) : list Entry' :=
  [(EvNow (datetime_now w4), w4);
   (EvSaveModel (model_path (strftime (datetime_now w4))) ret, w5)].

Inductive train_trace (data : loc) : outcome string → list Entry' → Prop :=
| train_drop_raises e w0 :
    train_trace data (Raised e) [(EvDrop data ["target"] (Raised e), w0)]
| train_environment_raises env w0 frame e w1 :
    train_trace data (Raised e)
      [(EvDrop data ["target"] (Returned env), w0);
       (EvTradingEnvironment env frame (Raised e), w1)]
| train_get_state_raises env w0 frame w1 e w2 :
    train_trace data (Raised e)
      [(EvDrop data ["target"] (Returned env), w0);
       (EvTradingEnvironment env frame (Returned tt), w1);
       (EvGetState (Raised e), w2)]
| train_dqn_raises env w0 frame w1 state0 w2 e w3 :
    train_trace data (Raised e)
      [(EvDrop data ["target"] (Returned env), w0);
       (EvTradingEnvironment env frame (Returned tt), w1);
       (EvGetState (Returned state0), w2);
       (EvDQN (length state0) 3 (Raised e), w3)]
| train_episodes_raise env w0 frame w1 state0 w2 w3 e t :
    episodes_trace num_episodes (Raised e) t →
    train_trace data (Raised e)
      (setup_trace data env w0 frame w1 state0 w2 w3 ++ t)
| train_save_raises env w0 frame w1 state0 w2 w3 t w4 e w5 :
    episodes_trace num_episodes (Returned tt) t →
    train_trace data (Raised e)
      (setup_trace data env w0 frame w1 state0 w2 w3 ++ t ++
       save_trace w4 (Raised e) w5)
| train_saved env w0 frame w1 state0 w2 w3 t w4 w5 :
    episodes_trace num_episodes (Returned tt) t →
    train_trace data (Returned (model_path (strftime (datetime_now w4))))
      (setup_trace data env w0 frame w1 state0 w2 w3 ++ t ++
       save_trace w4 (Returned tt) w5).

(** *** Reading a trace *)

Definition is_reset (x : Entry') : bool :=
  match x.1 with EvReset _ => true | _ => false end.
Definition is_act (x : Entry') : bool :=
  match x.1 with EvAct _ _ => true | _ => false end.
Definition is_step (x : Entry') : bool :=
  match x.1 with EvStep _ _ => true | _ => false end.
Definition is_remember (x : Entry') : bool :=
  match x.1 with EvRemember _ _ _ _ _ _ => true | _ => false end.
Definition is_replay (x : Entry') : bool :=
  match x.1 with EvReplay _ _ => true | _ => false end.
Definition is_environment (x : Entry') : bool :=
  match x.1 with EvTradingEnvironment _ _ _ => true | _ => false end.
Definition is_get_state (x : Entry') : bool :=
  match x.1 with EvGetState _ => true | _ => false end.
Definition is_dqn (x : Entry') : bool :=
  match x.1 with EvDQN _ _ _ => true | _ => false end.
Definition is_save_model (x : Entry') : bool :=
  match x.1 with EvSaveModel _ _ => true | _ => false end.

(** The two closing calls. *)
Definition in_save (x : Entry') : bool :=
  match x.1 with EvNow _ | EvSaveModel _ _ => true | _ => false end.

(** The calls of the simulation loop. *)
Definition in_loop (x : Entry') : bool :=
  is_reset x || is_act x || is_step x || is_remember x || is_replay x.

(** How many entries of a trace satisfy [p]. *)
Definition calls (p : Entry' → bool) (t : list Entry') : nat :=
  length (List.filter p t).


Definition raised (x : Entry') : option exn := event_raised x.1.

(** Every call in the trace returned. *)
Definition all_returned (t : list Entry') : Prop :=
  Forall (λ x, raised x = None) t.

(** The trace of a computation that ended in [o]: every call returned,
    except that an exception [o] is the one raised by the last call. *)
Definition raises_last {X} (o : outcome X) (t : list Entry') : Prop :=
  match o with
  | Returned _ => all_returned t
  | Raised e => ∃ t' x, t = t' ++ [x] ∧ all_returned t' ∧ raised x = Some e
  end.




(** An episode of [k] iterations: one reset, and [k] calls each of [act],
    [step] and [remember]. *)
Definition iterations (k : nat) (t : list Entry') : Prop :=
  calls is_act t = k ∧ calls is_step t = k ∧ calls is_remember t = k ∧
  calls is_replay t ≤ k.

(** An episode that ends on its first step: a reset, then one iteration
    whose termination flag is set. *)
Definition one_step_episode (ep : list Entry') : Prop :=
  ∃ s w s_end t,
    ep = (EvReset (Returned s), w) :: t ∧
    step_trace s (Returned (s_end, true)) t.

(** *** Frames the computation does not reach *)

(** Two stores that differ at most in the frame at [l]. *)
Definition agree_off (l : loc) (σ1 σ2 : @Store W) : Prop :=
  world σ1 = world σ2 ∧ console σ1 = console σ2 ∧
  length (frames σ1) = length (frames σ2) ∧
  ∀ l', l' ≠ l → frames σ1 !! l' = frames σ2 !! l'.

(** The computation neither writes nor reads the frame at [l]: it leaves
    the frame as it is, and it runs the same way whatever the frame
    holds. *)
Definition leaves (l : loc) {X} (m : @M Feature Action Reward W X) : Prop :=
  (∀ σ, frames (final (m σ)) !! l = frames σ !! l) ∧
  (∀ σ1 σ2, agree_off l σ1 σ2 →
     res (m σ1) = res (m σ2) ∧ trace (m σ1) = trace (m σ2) ∧
     agree_off l (final (m σ1)) (final (m σ2))).

End Shape.

(** ** Stub collaborators *)

(** A small environment and agent to run the controller on: the environment
    walks the rows of its frame, the agent counts what it is told. *)
Module Stub.

Record World : Type := mkWorld {
  cursor : nat;          (* the environment's current row *)
  memory : nat;          (* transitions held in the replay memory *)
  replays : nat;         (* replay calls served *)
  ticks : nat;           (* seconds elapsed on the clock *)
  saved : list string    (* paths the model was saved under *)
}.

(** Row [i] of a frame, read across the columns (wrapping around); a NaN
    cell cannot become a feature. *)
Fixpoint row (cols : list (string * list cell)) (i : nat) : outcome (list Z) :=
  match cols with
  | [] => Returned []
  | (label, cells) :: cols' =>
      match cells !! (i `mod` length cells) with
      | Some (Num z) =>
          match row cols' i with
          | Returned zs => Returned (z :: zs)
          | Raised e => Raised e
          end
      | Some NaN => Raised (PyExn "ValueError" ("NaN in column " +:+ label))
      | None => Raised (PyExn "IndexError" ("no rows in column " +:+ label))
      end
  end.

(** An environment whose episodes end after [horizon] steps. *)
Definition environment (horizon : nat)
  : EnvironmentClass (list Z) nat Z World := {|
  TradingEnvironment df w :=
    match columns df with
    | [] => (Raised (PyExn "ValueError" "no feature columns"), df, w)
    | _ => (Returned tt, df, w)
    end;
  _get_state df w := (row (columns df) (cursor w), df, w);
  reset df w :=
    (row (columns df) 0, df,
     mkWorld 0 (memory w) (replays w) (S (ticks w)) (saved w));
  step action df w :=
    let i := S (cursor w) in
    (match row (columns df) i with
     | Returned s => Returned (s, Z.of_nat action, horizon <=? i)
     | Raised e => Raised e
     end, df,
     mkWorld i (memory w) (replays w) (S (ticks w)) (saved w))
|}.

(** An agent whose memory holds at most [capacity] transitions; when
    [replay_fails] is set, its replay raises. *)
Definition agent (capacity : nat) (replay_fails : bool)
  : DQNClass (list Z) nat Z World := {|
  DQN state_size action_size w :=
    (Returned tt, mkWorld (cursor w) 0 0 (ticks w) (saved w));
  act s w := (Returned (length s `mod` 3), w);
  remember s a r s' d w :=
    (Returned tt,
     mkWorld (cursor w) (S (memory w) `min` capacity) (replays w) (ticks w)
             (saved w));
  memory_len w := memory w;
  replay batch w :=
    if replay_fails then (Raised (PyExn "ValueError" "loss is nan"), w)
    else (Returned tt,
          mkWorld (cursor w) (memory w) (S (replays w)) (ticks w) (saved w));
  save_model path w :=
    (Returned tt,
     mkWorld (cursor w) (memory w) (replays w) (ticks w) (path :: saved w))
|}.

Definition clock (w : World) : datetime :=
  mkDatetime 2024 3 5 14 (ticks w `div` 60) (ticks w `mod` 60).

(** Market data with a label column, and the same data with the labels
    replaced by NaN. *)
Definition market : DataFrame :=
  mkDataFrame [0; 1; 2]
    [("close", [Num 100; Num 102; Num 101]);
     ("volume", [Num 7; Num 9; Num 8]);
     ("target", [Num 1; Num 0; Num 1])].

Definition market_nan_target : DataFrame :=
  mkDataFrame [0; 1; 2]
    [("close", [Num 100; Num 102; Num 101]);
     ("volume", [Num 7; Num 9; Num 8]);
     ("target", [NaN; NaN; NaN])].

(** The same data without a label column. *)
Definition unlabelled : DataFrame :=
  mkDataFrame [0; 1; 2]
    [("close", [Num 100; Num 102; Num 101]);
     ("volume", [Num 7; Num 9; Num 8])].

Definition world0 : World := mkWorld 0 0 0 0 [].

(** A store holding one frame, at reference 0. *)
Definition store (df : DataFrame) : Store (W := World) :=
  mkStore [df] world0 [].

(** A full training run: no episode ends early and the memory outgrows
    the batch size during the seventh episode. *)
Definition full_run : Run string :=
  train_model (environment 100) (agent 2000 false) clock 0 (store market).

(** Two episodes of at most three steps, on an environment whose every
    step reports termination. *)
Definition short_run : Run string :=
  train_model_with (environment 1) (agent 2000 false) clock 2 3 BATCH_SIZE
    0 (store market).


(** The full run on data whose labels are all NaN. *)
Definition nan_run : Run string :=
  train_model (environment 100) (agent 2000 false) clock 0
    (store market_nan_target).

(** A run on data without a label column. *)
Definition unlabelled_run : Run string :=
  train_model (environment 100) (agent 2000 false) clock 0
    (store unlabelled).

(** A run whose first replay raises. *)
Definition failing_run : Run string :=
  train_model (environment 100) (agent 2000 true) clock 0 (store market).

(** An artifact decodes to a model (here, its size) unless it is empty. *)
Definition decode (artifact : list Byte.byte) : option nat :=
  match artifact with
  | [] => None
  | _ => Some (length artifact)
  end.

Definition disk : gmap string (list Byte.byte) :=
  {[ "model.h5" := [Byte.x89; Byte.x48; Byte.x44; Byte.x46];
     "broken.h5" := [] ]}.

End Stub.

(** ** The model loader *)

(** A file system: the artifact stored under each path. *)
Abbreviation FileSystem := (gmap string (list Byte.byte)).

Section Loader.

Context {Model : Type}.

(** What the bytes of an artifact decode to, when they are a model. *)
Variable deserialize : list Byte.byte → option Model.

(** Modelled from the spec: keras' [load_model], which the module imports
    (line 21) and whose code is not part of the repository.  It fails with
    a file-not-found error when nothing is stored under the path, with a
    deserialization error when the artifact is corrupt or incompatible,
    and otherwise returns the model. *)
Definition load_model (path : string) (fs : FileSystem) : outcome Model :=
  match fs !! path with
  | None => Raised (FileNotFoundError path)
  | Some artifact =>
      match deserialize artifact with
      | None => Raised (DeserializationError path)
      | Some model => Returned model
      end
  end.

(** Modelled from the spec: [load_existing_model], which the module
    docstring declares (lines 10-12) but whose body is missing from the
    source file.  It loads the artifact at the path and returns the model;
    a failure of the load passes to the caller as it is. *)
Definition load_existing_model (model_path : string) (fs : FileSystem)
  : outcome Model :=
  load_model model_path fs.

End Loader.

(** ** Further readings of a run *)

Section Readings.

Context {Feature Action Reward W : Type}.
Abbreviation State := (list Feature).
Abbreviation Entry' := (@Event Feature Action Reward * W)%type.

Variable env_class : EnvironmentClass State Action Reward W.
Variable dqn : DQNClass State Action Reward W.
Variable datetime_now : W → datetime.

(** *** What is printed *)

(** Line 65: [f"Starting episode {episode+1} of {NUM_EPISODES}"], for the
    episode numbered [i]. *)
Definition episode_line (num_episodes i : nat) : string :=
  "Starting episode " +:+ decimal i +:+ " of " +:+ decimal num_episodes.

(** Line 69: [f"\tStep {step+1} of {MAX_STEPS}"], for the step numbered
    [i]. *)
Definition step_line (max_steps i : nat) : string :=
  String (ascii_of_nat 9) "Step " +:+ decimal i +:+ " of " +:+
  decimal max_steps.

(** The lines of the episode numbered [i] when it makes [k] iterations. *)
Definition episode_lines (num_episodes max_steps i k : nat) : list string :=
  episode_line num_episodes i :: (step_line max_steps <$> seq 1 k).

(** Line 97. *)
Definition saved_line : string := "model trained and saved".

(** The lines of a whole run whose episodes make [ks] iterations. *)
Definition progress_lines (num_episodes max_steps : nat) (ks : list nat)
  : list string :=
  ["setting up RL learning environment..."; "loading DQN model...";
   "running simulation..."] ++
  concat (imap (λ i k, episode_lines num_episodes max_steps (S i) k) ks) ++
  [saved_line].

(** The computation prints nothing. *)
Definition silent {X} (m : @M Feature Action Reward W X) : Prop :=
  ∀ σ, console (final (m σ)) = console σ.

(** The computation only adds lines to the console, and the closing line is
    not among them. *)
Definition quiet {X} (m : @M Feature Action Reward W X) : Prop :=
  ∀ σ, ∃ lines,
    console (final (m σ)) = console σ ++ lines ∧ saved_line ∉ lines.

(** The computation only adds lines to the console, and the closing line is
    among them exactly when it returns. *)
Definition finishes {X} (m : @M Feature Action Reward W X) : Prop :=
  ∀ σ, ∃ lines,
    console (final (m σ)) = console σ ++ lines ∧
    (saved_line ∈ lines ↔ ∃ x, res (m σ) = Returned x).

(** *** The current observation *)

(** The state the environment showed last: a reset or a step that returned
    shows a state, except that after a step that reported termination there
    is nothing to act on until the next reset. *)
Definition observe (cur : option State) (x : Entry') : option State :=
  match x.1 with
  | EvReset (Returned s) => Some s
  | EvStep _ (Returned (s', _, d)) => if d then None else Some s'
  | _ => cur
  end.

Definition latest_observation (t : list Entry') : option State :=
  foldl observe None t.

(** Every [act] of the trace is given the current observation, starting
    from [cur]. *)
Definition acts_on_latest (cur : option State) (t : list Entry') : Prop :=
  ∀ i s ret w,
    t !! i = Some (EvAct s ret, w) → foldl observe cur (take i t) = Some s.

(** *** Transitions *)

(** The call at position [i] is booked: an action the agent chose goes to
    the environment next; a step is for the action just chosen, and the
    transition it returns is remembered next, as it is; a remember is for
    the transition just made. *)
Definition booked (t : list Entry') (i : nat) : Prop :=
  match t !! i with
  | Some (EvAct s (Returned a), _) => ∃ ret w, t !! S i = Some (EvStep a ret, w)
  | Some (EvStep a ret, _) =>
      ∃ j s w1,
        i = S j ∧ t !! j = Some (EvAct s (Returned a), w1) ∧
        match ret with
        | Returned (s', r, d) =>
            ∃ o w3, t !! S i = Some (EvRemember s a r s' d o, w3)
        | Raised _ => True
        end
  | Some (EvRemember s a r s' d _, _) =>
      ∃ j w1 w2,
        i = S (S j) ∧ t !! j = Some (EvAct s (Returned a), w1) ∧
        t !! S j = Some (EvStep a (Returned (s', r, d)), w2)
  | _ => True
  end.

(** *** How many calls *)

(** At most [k] iterations were begun, and each later call of an iteration
    was made no more often than the one before it. *)
Definition begun (k : nat) (t : list Entry') : Prop :=
  calls is_replay t ≤ calls is_remember t ∧
  calls is_remember t ≤ calls is_step t ∧
  calls is_step t ≤ calls is_act t ∧
  calls is_act t ≤ k.

(** *** Worlds *)

(** The world a trace leaves, from the world [w0] it started in. *)
Definition last_world (w0 : W) (t : list Entry') : W :=
  from_option snd w0 (last t).

(** The entry is what its operation does in the world [w0]: the operation,
    applied to the recorded arguments, gives the recorded outcome and the
    recorded world.  (A method of the environment also takes the frame the
    environment holds.) *)
Definition genuine (w0 : W) (x : Entry') : Prop :=
  match x.1 with
  | EvDrop _ _ _ => x.2 = w0
  | EvTradingEnvironment _ frame ret =>
      ∃ df df', frame = Some df ∧
                TradingEnvironment env_class df w0 = (ret, df', x.2)
  | EvGetState ret => ∃ df df', _get_state env_class df w0 = (ret, df', x.2)
  | EvDQN state_size action_size ret =>
      DQN dqn state_size action_size w0 = (ret, x.2)
  | EvReset ret => ∃ df df', reset env_class df w0 = (ret, df', x.2)
  | EvAct s ret => act dqn s w0 = (ret, x.2)
  | EvStep a ret => ∃ df df', step env_class a df w0 = (ret, df', x.2)
  | EvRemember s a r s' d ret => remember dqn s a r s' d w0 = (ret, x.2)
  | EvReplay batch_size ret => replay dqn batch_size w0 = (ret, x.2)
  | EvNow d => x.2 = w0 ∧ d = datetime_now w0
  | EvSaveModel path ret => save_model dqn path w0 = (ret, x.2)
  end.

(** Every entry is genuine in the world its predecessor left. *)
Fixpoint genuine_from (w0 : W) (t : list Entry') : Prop :=
  match t with
  | [] => True
  | x :: t' => genuine w0 x ∧ genuine_from x.2 t'
  end.

(** A computation on the environment built on the frame at [env]: run on a
    store that holds this frame, it makes genuine calls, leaves the world of
    its last call, and allocates nothing. *)
Definition honest (env : nat) {X} (m : @M Feature Action Reward W X) : Prop :=
  ∀ σ, env < length (frames σ) →
    genuine_from (world σ) (trace (m σ)) ∧
    world (final (m σ)) = last_world (world σ) (trace (m σ)) ∧
    length (frames (final (m σ))) = length (frames σ).

End Readings.

(** * Proofs *)

Section Soundness.

Context {Feature Action Reward W : Type}.
Variable env_class : EnvironmentClass (list Feature) Action Reward W.
Variable dqn : DQNClass (list Feature) Action Reward W.
Variable datetime_now : W → datetime.
Variables num_episodes max_steps batch_size : nat.

Local Ltac unfold_monad :=
  unfold mbind, M_bind, mret, M_ret, call_model, call_env, len_memory, print,
    now, drop in *; simpl in *.

Abbreviation Comp := (@M Feature Action Reward W).
Abbreviation Entry' := (@Event Feature Action Reward * W)%type.

(** Sequencing, as seen from the outside. *)
Lemma bind_raised {X Y} (m : Comp X) (k : X → Comp Y) σ e :
  res (m σ) = Raised e →
  (m ≫= k) σ = mkRun (Raised e) (final (m σ)) (trace (m σ)).
Proof. unfold_monad. by intros ->. Qed.

Lemma bind_returned {X Y} (m : Comp X) (k : X → Comp Y) σ x :
  res (m σ) = Returned x →
  (m ≫= k) σ =
  mkRun (res (k x (final (m σ)))) (final (k x (final (m σ))))
        (trace (m σ) ++ trace (k x (final (m σ)))).
Proof. unfold_monad. by intros ->. Qed.

Lemma step_body_shape env s σ :
  let r := step_body env_class dqn batch_size env s σ in
  step_trace env_class dqn batch_size s (res r) (trace r).
Proof.
  unfold step_body. unfold_monad.
  destruct (act dqn s (world σ)) as [[a|e] w1]; simpl; [|constructor].
  destruct (frames σ !! env) as [df|]; simpl; [|constructor].
  destruct (step env_class a df w1) as [[[[[s' r] d]|e] df'] w2] eqn:Hstep;
    simpl; [|constructor].
  assert (env_stepped env_class a s' r d w2) by (by exists df, w1, df').
  destruct (remember dqn s a r s' d w2) as [[[]|e] w3]; simpl;
    [|by constructor].
  destruct (Nat.ltb_spec batch_size (memory_len dqn w3)); simpl.
  - destruct (replay dqn batch_size w3) as [[[]|e] w4]; simpl;
      by constructor.
  - by constructor.
Qed.

Lemma run_bind {X Y} (m : Comp X) (k : X → Comp Y) σ :
  (m ≫= k) σ =
  match res (m σ) with
  | Raised e => mkRun (Raised e) (final (m σ)) (trace (m σ))
  | Returned x =>
      mkRun (res (k x (final (m σ)))) (final (k x (final (m σ))))
            (trace (m σ) ++ trace (k x (final (m σ))))
  end.
Proof. reflexivity. Qed.

Lemma step_loop_shape env todo i s σ :
  let r := step_loop env_class dqn max_steps batch_size env todo i s σ in
  steps_trace env_class dqn batch_size todo s (res r) (trace r).
Proof.
  revert i s σ. induction todo as [|todo IH]; intros i s σ; [constructor|].
  cbn [step_loop]. rewrite run_bind. cbn [print res final trace app].
  rewrite run_bind.
  match goal with |- context [step_body _ _ _ _ _ ?σ1] =>
    pose proof (step_body_shape env s σ1) as Hstep;
    destruct (step_body env_class dqn batch_size env s σ1)
      as [[[s' d]|e] σ2 t]
  end; cbn [res final trace] in *.
  - destruct d; unfold mret, M_ret; cbn [res final trace].
    + rewrite app_nil_r. by apply steps_break.
    + eapply steps_continue; [done|]. apply IH.
  - by apply steps_raise.
Qed.

Lemma call_env_run {X} env (ev : outcome X → Event) op (σ : Store) :
  ∃ o w (fs : list DataFrame),
    call_env env ev op σ =
      mkRun o (mkStore fs w (console σ)) [((ev o, w) : Entry')] ∧
    length fs = length (frames σ) ∧
    ∀ l, l ≠ env → fs !! l = frames σ !! l.
Proof.
  unfold call_env. destruct (frames σ !! env) as [df|].
  - destruct (op df (world σ)) as [[o df'] w].
    exists o, w, (<[env := df']> (frames σ)).
    split_and!; [done|by rewrite length_insert|].
    intros l Hl. by rewrite list_lookup_insert_ne.
  - eexists _, _, (frames σ). by destruct σ.
Qed.

Lemma call_model_run {X} (ev : outcome X → Event) op (σ : Store) :
  ∃ o w,
    call_model ev op σ =
      mkRun o (mkStore (frames σ) w (console σ)) [((ev o, w) : Entry')].
Proof.
  unfold call_model. destruct (op (world σ)) as [o w]. by exists o, w.
Qed.

Lemma call_model_eq {X} (ev : outcome X → Event) op (σ : Store) o w :
  op (world σ) = (o, w) →
  call_model ev op σ =
  mkRun o (mkStore (frames σ) w (console σ)) [((ev o, w) : Entry')].
Proof. unfold call_model. by intros ->. Qed.

Lemma call_env_eq {X} env (ev : outcome X → Event) op (σ : Store)
    df o df' w :
  frames σ !! env = Some df →
  op df (world σ) = (o, df', w) →
  call_env env ev op σ =
  mkRun o (mkStore (<[env := df']> (frames σ)) w (console σ))
        [((ev o, w) : Entry')].
Proof. unfold call_env. by intros -> ->. Qed.

Lemma episode_loop_shape env todo i σ :
  let r := episode_loop env_class dqn num_episodes max_steps batch_size
             env todo i σ in
  episodes_trace env_class dqn max_steps batch_size todo (res r) (trace r).
Proof.
  revert i σ. induction todo as [|todo IH]; intros i σ; [constructor|].
  cbn [episode_loop]. rewrite run_bind. cbn [print res final trace app].
  rewrite run_bind.
  match goal with |- context [call_env ?l ?ev ?op ?σ1] =>
    destruct (call_env_run l ev op σ1) as ([s|e] & w1 & fs & -> & _)
  end; cbn [res final trace]; [|apply episodes_reset_raises].
  rewrite run_bind.
  match goal with |- context [step_loop _ _ _ _ _ _ _ _ ?σ1] =>
    pose proof (step_loop_shape env max_steps 0 s σ1) as Hsteps;
    destruct (step_loop env_class dqn max_steps batch_size env
                max_steps 0 s σ1) as [[s_end|e] σ3 t]
  end; cbn [res final trace app] in *.
  - change ((EvReset (Returned s), w1) :: t ++ ?t') with
      (((EvReset (Returned s), w1) :: t) ++ t').
    apply episodes_cons; [by econstructor|apply IH].
  - by apply episodes_steps_raise.
Qed.

Lemma train_model_with_shape data σ :
  let r := train_model_with env_class dqn datetime_now num_episodes
             max_steps batch_size data σ in
  train_trace env_class dqn datetime_now num_episodes max_steps batch_size data
    (res r) (trace r).
Proof.
  unfold train_model_with. rewrite run_bind.
  assert (∃ o fs, drop data ["target"] σ =
            mkRun o (mkStore fs (world σ) (console σ))
              [((EvDrop data ["target"] o, world σ) : Entry')])
    as (o & fs & ->).
  { unfold drop. destruct (frames σ !! data) as [df|];
      [destruct (DataFrame_.drop _ df)|]; destruct σ; eauto. }
  destruct o as [env|e]; cbn [res final trace]; [|constructor].
  rewrite run_bind. cbn [print res final trace app]. rewrite run_bind.
  cbn [frame_at res final trace app]. rewrite run_bind.
  match goal with |- context [call_env ?l ?ev ?op ?σ1] =>
    destruct (call_env_run l ev op σ1) as ([[]|e] & w1 & fs1 & -> & _)
  end; cbn [res final trace app]; [|constructor].
  rewrite run_bind.
  match goal with |- context [call_env ?l ?ev ?op ?σ1] =>
    destruct (call_env_run l ev op σ1) as ([state0|e] & w2 & fs2 & -> & _)
  end; cbn [res final trace app]; [|constructor].
  rewrite run_bind. cbn [print res final trace app]. rewrite run_bind.
  match goal with |- context [call_model ?ev ?op ?σ1] =>
    destruct (call_model_run ev op σ1) as ([[]|e] & w3 & ->)
  end; cbn [res final trace app]; [|constructor].
  rewrite run_bind. cbn [print res final trace app]. rewrite run_bind.
  match goal with |- context [episode_loop _ _ _ _ _ _ _ _ ?σ1] =>
    pose proof (episode_loop_shape env num_episodes 0 σ1) as Heps;
    destruct (episode_loop env_class dqn num_episodes max_steps batch_size
                env num_episodes 0 σ1) as [[[]|e] σ4 t]
  end; cbn [res final trace app] in *;
    [|by apply train_episodes_raise].
  rewrite run_bind. cbn [now res final trace app]. rewrite run_bind.
  match goal with |- context [call_model ?ev ?op ?σ1] =>
    destruct (call_model_run ev op σ1) as ([[]|e] & w5 & ->)
  end; cbn [res final trace app].
  - rewrite run_bind. cbn [print mret M_ret res final trace app].
    by apply train_saved.
  - by apply train_save_raises.
Qed.

End Soundness.

(** ** Dropping columns *)

Section Drop.

Lemma drop_returned cols df df' :
  DataFrame_.drop cols df = Returned df' →
  index df' = index df ∧
  columns df' = filter (λ col, col.1 ∉ cols) (columns df) ∧
  ∀ c, c ∈ cols → c ∉ labels df'.
Proof.
  unfold DataFrame_.drop.
  destruct (filter _ cols); [|done]. intros [= <-]; cbn.
  split_and!; [done..|]. intros c Hc. unfold labels; cbn.
  intros (col & -> & [Hcol _]%list_elem_of_filter)%list_elem_of_fmap.
  done.
Qed.

Lemma drop_missing label df :
  label ∉ labels df →
  ∃ msg, DataFrame_.drop [label] df = Raised (KeyError msg).
Proof.
  intros Hlabel. unfold DataFrame_.drop.
  rewrite filter_cons_True by done. by eexists.
Qed.

Lemma same_but_labels label df1 df2 :
  DataFrame_.same_but label df1 df2 → labels df1 = labels df2.
Proof.
  intros [_ Hcols]. unfold labels.
  induction Hcols as [|c1 c2 cols1 cols2 [Hc _] _ IH]; [done|]; cbn.
  by rewrite Hc, IH.
Qed.

(** Frames that differ in the cells of the label column only are the same
    frame once that column is dropped. *)
Lemma same_but_drop label df1 df2 :
  DataFrame_.same_but label df1 df2 →
  DataFrame_.drop [label] df1 = DataFrame_.drop [label] df2.
Proof.
  intros Hsame. pose proof (same_but_labels _ _ _ Hsame) as Hlabels.
  destruct Hsame as [Hindex Hcols]. unfold DataFrame_.drop.
  rewrite Hlabels, Hindex.
  destruct (filter _ [label]); [|done]. do 2 f_equal.
  induction Hcols as [|[l1 cells1] [l2 cells2] cols1 cols2 [Hl Hcells] _ IH];
    [done|]; cbn in Hl, Hcells. subst l2.
  rewrite !filter_cons, IH; cbn [fst]. destruct (decide (l1 ∉ [label])) as [Hl1|]; [|done].
  rewrite Hcells; [done|]. intros ->. apply Hl1. by left.
Qed.

(** Dropping a label the frame has returns. *)
Lemma drop_present label df :
  label ∈ labels df →
  ∃ df', DataFrame_.drop [label] df = Returned df'.
Proof.
  intros Hlabel. unfold DataFrame_.drop.
  rewrite filter_cons_False by (intros H; by apply H).
  by eexists.
Qed.

End Drop.

(** ** Frames out of reach *)

Section Frames.

Context {Feature Action Reward W : Type}.
Variable env_class : EnvironmentClass (list Feature) Action Reward W.
Variable dqn : DQNClass (list Feature) Action Reward W.
Variable datetime_now : W → datetime.
Variables num_episodes max_steps batch_size : nat.

Abbreviation Comp := (@M Feature Action Reward W).

Lemma agree_off_refl l (σ : @Store W) : agree_off l σ σ.
Proof. by repeat split. Qed.

Lemma leaves_ret l {X} (x : X) : leaves l (mret x : Comp X).
Proof. split; [done|]. by intros σ1 σ2 H. Qed.

Lemma leaves_bind l {X Y} (m : Comp X) (k : X → Comp Y) :
  leaves l m → (∀ x, leaves l (k x)) → leaves l (m ≫= k).
Proof.
  intros [Hm1 Hm2] Hk. split.
  - intros σ. rewrite run_bind. destruct (res (m σ)) as [x|e]; cbn; [|done].
    destruct (Hk x) as [-> _]. apply Hm1.
  - intros σ1 σ2 H. rewrite !run_bind.
    destruct (Hm2 _ _ H) as (Hres & Htrace & Hfinal).
    rewrite <-Hres, <-Htrace. destruct (res (m σ1)) as [x|e]; cbn; [|done].
    destruct (Hk x) as [_ Hk2]. destruct (Hk2 _ _ Hfinal) as (-> & -> & ?).
    done.
Qed.

Lemma leaves_print l line : leaves l (print line : Comp unit).
Proof.
  split; [done|]. intros σ1 σ2 (Hw & Hc & Hn & Hf).
  unfold print, agree_off; cbn. by rewrite Hc.
Qed.

Lemma leaves_call_model l {X} (ev : outcome X → Event) op :
  leaves l (call_model ev op : Comp X).
Proof.
  split.
  - intros σ. unfold call_model. by destruct (op (world σ)).
  - intros σ1 σ2 (Hw & Hc & Hn & Hf). unfold call_model, agree_off.
    rewrite Hw. destruct (op (world σ2)) as [o w]; cbn. by rewrite Hc.
Qed.

Lemma leaves_call_env l env {X} (ev : outcome X → Event) op :
  l ≠ env → leaves l (call_env env ev op : Comp X).
Proof.
  intros Hl. split.
  - intros σ. unfold call_env. destruct (frames σ !! env); [|done].
    destruct (op _ _) as [[o df'] w]; cbn.
    by apply list_lookup_insert_ne.
  - intros σ1 σ2 (Hw & Hc & Hn & Hf). unfold call_env, agree_off.
    rewrite <-(Hf env), Hw by done.
    destruct (frames σ1 !! env); cbn; [|by rewrite Hw].
    destruct (op _ _) as [[o df'] w]; cbn.
    rewrite Hc, !length_insert. split_and!; try done.
    intros l' Hl'. rewrite !list_lookup_insert, Hn, (Hf l') by done. done.
Qed.

Lemma leaves_frame_at l l' : l ≠ l' → leaves l (frame_at l' : Comp _).
Proof.
  intros Hl. split; [done|]. intros σ1 σ2 H. unfold frame_at; cbn.
  destruct H as (? & ? & ? & Hf). by rewrite (Hf l').
Qed.

Lemma leaves_now l : leaves l (now datetime_now : Comp _).
Proof.
  split; [done|]. intros σ1 σ2 H. unfold now; cbn.
  destruct H as (Hw & ?). by rewrite Hw.
Qed.

Lemma leaves_len_memory l : leaves l (len_memory dqn : Comp _).
Proof.
  split; [done|]. intros σ1 σ2 H. unfold len_memory; cbn.
  destruct H as (Hw & ?). by rewrite Hw.
Qed.

(** Walks through a computation built from the operations above. *)
Local Ltac leaves_step :=
  first
    [ apply leaves_bind; [|intros ?]
    | apply leaves_ret
    | apply leaves_print
    | apply leaves_call_model
    | apply leaves_call_env; done
    | apply leaves_frame_at; done
    | apply leaves_now
    | apply leaves_len_memory
    | match goal with |- leaves _ (match ?x with _ => _ end) => destruct x end
    | match goal with |- leaves _ (if ?b then _ else _) => destruct b end ].

Lemma leaves_step_body l env s :
  l ≠ env → leaves l (step_body env_class dqn batch_size env s).
Proof. intros Hl. unfold step_body. repeat leaves_step. Qed.

Lemma leaves_step_loop l env todo i s :
  l ≠ env →
  leaves l (step_loop env_class dqn max_steps batch_size env todo i s).
Proof.
  intros Hl. revert i s. induction todo as [|todo IH]; intros i s;
    cbn [step_loop]; [apply leaves_ret|].
  apply leaves_bind; [apply leaves_print|intros _].
  apply leaves_bind; [by apply leaves_step_body|intros [s' []]];
    [apply leaves_ret|apply IH].
Qed.

Lemma leaves_episode_loop l env todo i :
  l ≠ env →
  leaves l
    (episode_loop env_class dqn num_episodes max_steps batch_size env todo i).
Proof.
  intros Hl. revert i. induction todo as [|todo IH]; intros i;
    cbn [episode_loop]; [apply leaves_ret|].
  apply leaves_bind; [apply leaves_print|intros _].
  apply leaves_bind; [by apply leaves_call_env|intros s].
  apply leaves_bind; [by apply leaves_step_loop|intros _]. apply IH.
Qed.

Lemma drop_run data cols (σ : @Store W) df :
  frames σ !! data = Some df →
  drop data cols σ =
  match DataFrame_.drop cols df with
  | Returned df' =>
      mkRun (Returned (length (frames σ)))
            (mkStore (frames σ ++ [df']) (world σ) (console σ))
            [((EvDrop data cols (Returned (length (frames σ))), world σ)
              : @Event Feature Action Reward * W)]
  | Raised e => mkRun (Raised e) σ [(EvDrop data cols (Raised e), world σ)]
  end.
Proof.
  intros Hdata. unfold drop. rewrite Hdata.
  by destruct (DataFrame_.drop cols df).
Qed.

(** The label-free copy is allocated past every frame of the store; from
    there on the run stays away from the caller's frame. *)
Lemma train_model_with_keeps data σ df :
  frames σ !! data = Some df →
  frames (final (train_model_with env_class dqn datetime_now num_episodes
                   max_steps batch_size data σ)) !! data = Some df.
Proof.
  intros Hdata. unfold train_model_with. rewrite run_bind.
  rewrite (drop_run _ _ _ _ Hdata).
  destruct (DataFrame_.drop ["target"] df) as [df'|e]; cbn; [|done].
  assert (data ≠ length (frames σ)) as Hfresh
    by (apply lookup_lt_Some in Hdata; lia).
  match goal with |- frames (final (?m ?σ')) !! _ = _ =>
    assert (leaves data m) as [-> _]
  end.
  { repeat leaves_step. by apply leaves_episode_loop. }
  cbn. by apply lookup_app_l_Some.
Qed.

(** Two frames that are the same once the label column is dropped give
    the same run. *)
Lemma train_model_with_blind data σ1 σ2 df1 df2 :
  agree_off data σ1 σ2 →
  frames σ1 !! data = Some df1 →
  frames σ2 !! data = Some df2 →
  DataFrame_.drop ["target"] df1 = DataFrame_.drop ["target"] df2 →
  let r1 := train_model_with env_class dqn datetime_now num_episodes
              max_steps batch_size data σ1 in
  let r2 := train_model_with env_class dqn datetime_now num_episodes
              max_steps batch_size data σ2 in
  res r1 = res r2 ∧ trace r1 = trace r2 ∧ agree_off data (final r1) (final r2).
Proof.
  intros Hσ Hdata1 Hdata2 Hdrop; cbn zeta. unfold train_model_with.
  rewrite !run_bind.
  rewrite (drop_run _ _ _ _ Hdata1), (drop_run _ _ _ _ Hdata2), Hdrop.
  pose proof Hσ as (Hw & Hc & Hn & Hf). rewrite Hw, Hn.
  destruct (DataFrame_.drop ["target"] df2) as [df'|e]; cbn; [|done].
  assert (data ≠ length (frames σ2)) as Hfresh
    by (apply lookup_lt_Some in Hdata2; lia).
  match goal with |- res (?m ?σ1') = res (?m ?σ2') ∧ _ =>
    assert (leaves data m) as [_ Hblind];
      [|destruct (Hblind σ1' σ2') as (-> & -> & ?)]
  end; [| |done].
  { repeat leaves_step. by apply leaves_episode_loop. }
  unfold agree_off; cbn. rewrite !length_app, Hn. split_and!; try done.
  intros l' Hl'. rewrite !lookup_app, Hn, (Hf l') by done. done.
Qed.

(** The second call of a run is the environment's constructor, on the
    frame the drop produced. *)
Lemma train_model_with_second_call data σ df x :
  frames σ !! data = Some df →
  trace (train_model_with env_class dqn datetime_now num_episodes
           max_steps batch_size data σ) !! 1 = Some x →
  ∃ df' ret w,
    DataFrame_.drop ["target"] df = Returned df' ∧
    x = (EvTradingEnvironment (length (frames σ)) (Some df') ret, w).
Proof.
  intros Hdata. unfold train_model_with. rewrite run_bind.
  rewrite (drop_run _ _ _ _ Hdata).
  destruct (DataFrame_.drop ["target"] df) as [df'|e]; cbn [res final trace];
    [|done].
  rewrite run_bind. cbn [print res final trace app]. rewrite run_bind.
  cbn [frame_at res final trace app frames]. rewrite run_bind.
  rewrite list_lookup_middle by done.
  match goal with |- context [call_env ?l ?ev ?op ?σ1] =>
    destruct (call_env_run l ev op σ1) as (ret & w & fs & -> & _)
  end.
  destruct ret as [[]|e]; cbn; intros [= <-]; by eauto.
Qed.

(** The first two calls of a run on a frame whose drop returns: the drop,
    and the environment's constructor applied to the frame the drop made,
    in the world the run started in. *)
Lemma train_model_with_first_calls data σ df df' :
  frames σ !! data = Some df →
  DataFrame_.drop ["target"] df = Returned df' →
  ∃ ret frame' w1 t,
    TradingEnvironment env_class df' (world σ) = (ret, frame', w1) ∧
    trace (train_model_with env_class dqn datetime_now num_episodes
             max_steps batch_size data σ)
    = ((EvDrop data ["target"] (Returned (length (frames σ))), world σ)
       : @Event Feature Action Reward * W) ::
      (EvTradingEnvironment (length (frames σ)) (Some df') ret, w1) :: t.
Proof.
  intros Hdata Hdrop. unfold train_model_with. rewrite run_bind.
  rewrite (drop_run _ _ _ _ Hdata), Hdrop. cbn [res final trace].
  rewrite run_bind. cbn [print res final trace app]. rewrite run_bind.
  cbn [frame_at res final trace app frames]. rewrite run_bind.
  rewrite list_lookup_middle by done.
  destruct (TradingEnvironment env_class df' (world σ)) as [[ret frame'] w1]
    eqn:Henv.
  erewrite call_env_eq; [|by apply list_lookup_middle|exact Henv].
  cbn [res final trace app].
  exists ret, frame', w1. destruct ret as [[]|e]; cbn [trace app]; by eauto.
Qed.

End Frames.

(** ** What the shape of a run implies *)

Section Traces.

Context {Feature Action Reward W : Type}.
Variable env_class : EnvironmentClass (list Feature) Action Reward W.
Variable dqn : DQNClass (list Feature) Action Reward W.
Variable datetime_now : W → datetime.
Variables num_episodes max_steps batch_size : nat.

Abbreviation Entry' := (@Event Feature Action Reward * W)%type.
Abbreviation step_trace' := (step_trace env_class dqn batch_size).
Abbreviation steps_trace' := (steps_trace env_class dqn batch_size).
Abbreviation episode_trace' := (episode_trace env_class dqn max_steps batch_size).
Abbreviation episodes_trace' :=
  (episodes_trace env_class dqn max_steps batch_size).
Abbreviation train_trace' :=
  (train_trace env_class dqn datetime_now num_episodes max_steps batch_size).

(** *** Counting calls *)

Lemma calls_app (p : Entry' → bool) t1 t2 :
  calls p (t1 ++ t2) = calls p t1 + calls p t2.
Proof. unfold calls. by rewrite List.filter_app, length_app. Qed.

Lemma calls_cons (p : Entry' → bool) x t :
  calls p (x :: t) = (if p x then 1 else 0) + calls p t.
Proof. unfold calls; cbn. by destruct (p x). Qed.

Lemma calls_none (p : Entry' → bool) t :
  Forall (λ x, p x = false) t → calls p t = 0.
Proof.
  induction 1 as [|x t Hx _ IH]; [done|]. by rewrite calls_cons, Hx, IH.
Qed.

Lemma calls_zero_lookup (p : Entry' → bool) t i x :
  calls p t = 0 → t !! i = Some x → p x = false.
Proof.
  revert i. induction t as [|y t IH]; intros i; [done|].
  rewrite calls_cons. destruct i as [|i]; cbn.
  - intros ? [= ->]. destruct (p x); [lia|done].
  - intros ??. apply (IH i); [lia|done].
Qed.

(** A call found at one position only is made once. *)
Lemma calls_once (p : Entry' → bool) t i x :
  t !! i = Some x → p x = true →
  (∀ j y, t !! j = Some y → p y = true → j = i) →
  calls p t = 1.
Proof.
  intros Hi Hx Honly.
  rewrite <- (take_drop_middle t i x Hi), calls_app, calls_cons, Hx.
  rewrite !calls_none; [done| |].
  - apply Forall_lookup_2. intros j y Hj.
    destruct (p y) eqn:Hy; [|done].
    specialize (Honly (S i + j) y). rewrite lookup_drop in Hj.
    apply Honly in Hj; [lia|done].
  - apply Forall_lookup_2. intros j y Hj.
    destruct (p y) eqn:Hy; [|done].
    apply lookup_take_Some in Hj as [Hj Hlt].
    apply Honly in Hj; [lia|done].
Qed.

(** *** The loop makes loop calls only *)

Lemma step_trace_in_loop s o t :
  step_trace' s o t → Forall (λ x, in_loop x = true) t.
Proof. destruct 1; by repeat constructor. Qed.

Lemma steps_trace_in_loop cap s o t :
  steps_trace' cap s o t → Forall (λ x, in_loop x = true) t.
Proof.
  induction 1; [done|by eapply step_trace_in_loop..|].
  apply Forall_app; eauto using step_trace_in_loop.
Qed.

Lemma episodes_trace_in_loop n o t :
  episodes_trace' n o t → Forall (λ x, in_loop x = true) t.
Proof.
  induction 1 as [| | |n ep o t [s w s_end t' Ht'] _ IH];
    [by repeat constructor..| |].
  - constructor; [done|]. by eapply steps_trace_in_loop.
  - apply Forall_app. split; [|done].
    constructor; [done|]. by eapply steps_trace_in_loop.
Qed.

(** *** Exceptions end the run *)

Lemma raises_last_app {X} (o : outcome X) (t1 t2 : list Entry') :
  all_returned t1 → raises_last o t2 → raises_last o (t1 ++ t2).
Proof.
  intros H1. destruct o as [x|e]; cbn.
  - intros H2. by apply Forall_app.
  - intros (t' & x & -> & H2 & Hx). exists (t1 ++ t'), x.
    rewrite (assoc_L (++)). split_and!; [done| |done]. by apply Forall_app.
Qed.

Local Ltac raises_last_enum :=
  cbn;
  first
    [ by repeat constructor
    | by eexists [], _; split_and!; [reflexivity|repeat constructor|]
    | by eexists [_], _; split_and!; [reflexivity|repeat constructor|]
    | by eexists [_; _], _; split_and!; [reflexivity|repeat constructor|]
    | by eexists [_; _; _], _; split_and!; [reflexivity|repeat constructor|]
    | by eexists [_; _; _; _], _;
        split_and!; [reflexivity|repeat constructor|] ].

Lemma step_trace_raises_last s o t : step_trace' s o t → raises_last o t.
Proof. destruct 1; raises_last_enum. Qed.

Lemma steps_trace_raises_last cap s o t :
  steps_trace' cap s o t → raises_last o t.
Proof.
  induction 1 as [|cap s e t Ht|cap s s' t Ht|cap s s' t o t' Ht _ IH].
  - by constructor.
  - by apply step_trace_raises_last in Ht.
  - by apply step_trace_raises_last in Ht.
  - apply raises_last_app; [|done]. by apply step_trace_raises_last in Ht.
Qed.

Lemma episode_trace_all_returned ep : episode_trace' ep → all_returned ep.
Proof.
  destruct 1 as [s w s_end t Ht]. constructor; [done|].
  by apply steps_trace_raises_last in Ht.
Qed.

Lemma episodes_trace_raises_last n o t :
  episodes_trace' n o t → raises_last o t.
Proof.
  induction 1 as [|n e w|n s w e t Ht|n ep o t Hep _ IH].
  - by constructor.
  - raises_last_enum.
  - apply (raises_last_app (Raised e) [_]); [by repeat constructor|].
    by apply steps_trace_raises_last in Ht.
  - apply raises_last_app; [|done]. by apply episode_trace_all_returned.
Qed.

Lemma train_trace_raises_last data o t : train_trace' data o t → raises_last o t.
Proof.
  destruct 1 as [| | | |????????? Heps|??????????? Heps|?????????? Heps];
    try raises_last_enum.
  - apply raises_last_app; [by repeat constructor|].
    by apply episodes_trace_raises_last in Heps.
  - apply raises_last_app; [by repeat constructor|].
    apply raises_last_app; [by apply episodes_trace_raises_last in Heps|].
    raises_last_enum.
  - apply (raises_last_app (Returned _)); [by repeat constructor|].
    apply (raises_last_app (Returned _));
      [by apply episodes_trace_raises_last in Heps|].
    raises_last_enum.
Qed.

(** *** The set-up calls *)

(** Whatever is neither a loop call nor a closing call is one of the
    first four calls. *)
Lemma train_trace_setup_early data o t i x :
  train_trace' data o t → t !! i = Some x →
  in_loop x = false → in_save x = false → i < 4.
Proof.
  intros Ht Hi Hloop Hsave. apply lookup_lt_Some in Hi as Hlen.
  destruct Ht as [| | | |????????? Heps|??????????? Heps|?????????? Heps];
    try (cbn in Hlen; lia);
    apply episodes_trace_in_loop in Heps;
    (destruct i as [|[|[|[|i]]]]; [lia..|]); exfalso; cbn in Hi.
  - eapply Forall_lookup_1 in Heps; [|done]. cbn in Heps. congruence.
  - apply lookup_app_Some in Hi as [Hi|[_ Hi]].
    + eapply Forall_lookup_1 in Heps; [|done]. cbn in Heps. congruence.
    + destruct (i - length t) as [|[|?]]; cbn in Hi; by simplify_eq.
  - apply lookup_app_Some in Hi as [Hi|[_ Hi]].
    + eapply Forall_lookup_1 in Heps; [|done]. cbn in Heps. congruence.
    + destruct (i - length t) as [|[|?]]; cbn in Hi; by simplify_eq.
Qed.

(** The first four calls, in their order: the drop, the environment built
    on the frame the drop returned, the state sample, the agent built
    with the length of the sample and 3. *)
Lemma train_trace_setup_order data o t :
  train_trace' data o t →
  (∀ x, t !! 0 = Some x → ∃ ret w, x = (EvDrop data ["target"] ret, w)) ∧
  (∀ x, t !! 1 = Some x →
     ∃ env w0 frame ret w,
       t !! 0 = Some (EvDrop data ["target"] (Returned env), w0) ∧
       x = (EvTradingEnvironment env frame ret, w)) ∧
  (∀ x, t !! 2 = Some x → ∃ ret w, x = (EvGetState ret, w)) ∧
  (∀ x, t !! 3 = Some x →
     ∃ state0 w2 ret w,
       t !! 2 = Some (EvGetState (Returned state0), w2) ∧
       x = (EvDQN (length state0) 3 ret, w)).
Proof.
  destruct 1; cbn; split_and!; intros x Hx; simplify_eq;
    by eauto 10.
Qed.

(** *** Replays *)














(** *** Episodes *)

Lemma episodes_trace_split n t :
  episodes_trace' n (Returned tt) t →
  ∃ episodes,
    t = concat episodes ∧ length episodes = n ∧
    Forall episode_trace' episodes.
Proof.
  intros H. remember (Returned tt) as o eqn:Ho.
  induction H as [| | |n ep o t Hep _ IH]; try done.
  - by exists [].
  - destruct (IH Ho) as (episodes & -> & <- & ?).
    exists (ep :: episodes). by repeat constructor.
Qed.

Lemma step_trace_iterations s v t :
  step_trace' s (Returned v) t → iterations 1 t ∧ calls is_reset t = 0.
Proof. inversion 1; subst; repeat split; cbn; lia. Qed.

Lemma iterations_app k1 k2 (t1 t2 : list Entry') :
  iterations k1 t1 → iterations k2 t2 → iterations (k1 + k2) (t1 ++ t2).
Proof.
  intros (? & ? & ? & ?) (? & ? & ? & ?). unfold iterations.
  rewrite !calls_app. split_and!; lia.
Qed.

Lemma steps_trace_iterations cap s s_end t :
  steps_trace' cap s (Returned s_end) t →
  ∃ k, k ≤ cap ∧ iterations k t ∧ calls is_reset t = 0.
Proof.
  intros H. remember (Returned s_end) as o eqn:Ho.
  induction H as [|cap s e t Ht|cap s s' t Ht|cap s s' t o t' Ht _ IH];
    try done.
  - exists 0. by repeat split.
  - exists 1. apply step_trace_iterations in Ht as [??].
    split_and!; [lia|done..].
  - destruct (IH Ho) as (k & ? & ? & ?).
    apply step_trace_iterations in Ht as [??]. exists (1 + k).
    split_and!; [lia|by apply iterations_app|]. rewrite calls_app. lia.
Qed.

(** A completed episode resets once and iterates at most [max_steps]
    times. *)
Lemma episode_trace_iterations ep :
  episode_trace' ep →
  calls is_reset ep = 1 ∧ ∃ k, k ≤ max_steps ∧ iterations k ep.
Proof.
  destruct 1 as [s w s_end t Ht].
  apply steps_trace_iterations in Ht as (k & ? & (? & ? & ? & ?) & ?).
  unfold iterations. rewrite !calls_cons; cbn. split; [lia|].
  exists k. split_and!; lia.
Qed.

Lemma calls_reset_concat (episodes : list (list Entry')) :
  Forall episode_trace' episodes →
  calls is_reset (concat episodes) = length episodes.
Proof.
  induction 1 as [|ep episodes Hep _ IH]; [done|]; cbn [concat length].
  apply episode_trace_iterations in Hep as [Hep _].
  rewrite calls_app, Hep, IH. lia.
Qed.

(** However a run ends, it has reset the environment at most once per
    episode. *)
Lemma step_trace_no_reset s o t : step_trace' s o t → calls is_reset t = 0.
Proof. by destruct 1. Qed.

Lemma steps_trace_no_reset cap s o t :
  steps_trace' cap s o t → calls is_reset t = 0.
Proof.
  induction 1 as [|cap s e t Ht|cap s s' t Ht|cap s s' t o t' Ht _ IH];
    [done|by eapply step_trace_no_reset..|].
  apply step_trace_no_reset in Ht. rewrite calls_app. lia.
Qed.

Lemma episodes_trace_resets n o t :
  episodes_trace' n o t → calls is_reset t ≤ n.
Proof.
  induction 1 as [|n e w|n s w e t Ht|n ep o t Hep _ IH].
  - done.
  - cbn. lia.
  - apply steps_trace_no_reset in Ht. rewrite calls_cons; cbn. lia.
  - apply episode_trace_iterations in Hep as [Hep _].
    rewrite calls_app. lia.
Qed.

Lemma train_trace_resets data o t :
  train_trace' data o t → calls is_reset t ≤ num_episodes.
Proof.
  destruct 1 as [| | | |????????? Heps|??????????? Heps|?????????? Heps];
    try (cbn; lia); apply episodes_trace_resets in Heps;
    rewrite !calls_app; cbn; lia.
Qed.

End Traces.

(** ** Time stamps *)

Section Timestamps.




Lemma below_forall (P : nat → bool) k :
  forallb P (seq 0 k) = true → ∀ n, n < k → P n = true.
Proof.
  intros H n Hn. eapply forallb_forall in H; [done|].
  apply in_seq. lia.
Qed.

Lemma two_digits n : n < 100 → matches "dd" (zfill 2 (decimal n)) = true.
Proof.
  revert n.
  apply (below_forall (λ n, matches "dd" (zfill 2 (decimal n)))).
  vm_compute. reflexivity.
Qed.

Lemma four_digits n :
  10 * 100 ≤ n < 100 * 100 → matches "dddd" (zfill 4 (decimal n)) = true.
Proof.
  intros [Hlo Hhi].
  pose proof (below_forall
    (λ n, (n <? 10 * 100) || matches "dddd" (zfill 4 (decimal n)))
    (100 * 100)) as H.
  specialize (H ltac:(vm_compute; reflexivity) n Hhi).
  apply orb_true_iff in H as [Hn|Hn]; [|done].
  apply Nat.ltb_lt in Hn. lia.
Qed.





End Timestamps.

(** * The specification *)

Section Claims.

Context {Feature Action Reward W : Type}.
Variable env_class : EnvironmentClass (list Feature) Action Reward W.
Variable dqn : DQNClass (list Feature) Action Reward W.
Variable datetime_now : W → datetime.

Abbreviation Entry' := (@Event Feature Action Reward * W)%type.

(** A run that returns made the set-up calls, completed every episode,
    read the clock and saved the model. *)
Lemma train_model_with_returned num_episodes max_steps batch_size data σ path :
  let r := train_model_with env_class dqn datetime_now num_episodes
             max_steps batch_size data σ in
  res r = Returned path →
  ∃ env w0 frame w1 state0 w2 w3 t w4 w5,
    trace r = setup_trace data env w0 frame w1 state0 w2 w3 ++ t ++
              save_trace datetime_now w4 (Returned tt) w5 ∧
    episodes_trace env_class dqn max_steps batch_size num_episodes
      (Returned tt) t ∧
    path = model_path (strftime (datetime_now w4)).
Proof.
  intros r Hres.
  pose proof (train_model_with_shape env_class dqn datetime_now
                num_episodes max_steps batch_size data σ) as Hshape.
  cbn zeta in Hshape. fold r in Hshape. rewrite Hres in Hshape.
  inversion Hshape as [| | | | | |env w0 frame w1 state0 w2 w3 t w4 w5 Ht].
  by exists env, w0, frame, w1, state0, w2, w3, t, w4, w5.
Qed.

(** When every step of the environment reports termination, a step loop
    that returns has made one iteration. *)
Lemma steps_trace_done batch_size cap s s_end t :
  (∀ a df w s' rw d df' w',
     step env_class a df w = (Returned (s', rw, d), df', w') → d = true) →
  steps_trace env_class dqn batch_size (S cap) s (Returned s_end) t →
  step_trace env_class dqn batch_size s (Returned (s_end, true)) t.
Proof.
  intros Hdone Hsteps.
  inversion Hsteps as [| |?? s' ? Hstep|?? s' ??? Hstep]; subst; [done|].
  exfalso. inversion Hstep; subst;
    match goal with
    | H : env_stepped _ _ _ _ _ _ |- _ => destruct H as (df & w & df' & Henv)
    end; by apply Hdone in Henv.
Qed.

(** C1.  A run of [train_model] that returns consists of the set-up calls,
    then exactly [NUM_EPISODES] = 10 episodes, then the save.  An episode
    is one reset followed by at most [MAX_STEPS] = 10 iterations, and an
    iteration is, in this order: [act] on the current state, [step] with
    that action, [remember] of the transition, [replay] when the memory
    is longer than the batch size; the next iteration acts on the state
    the step returned, and there is none after a step that reported
    termination ([episode_trace]).  With 2 episodes, 3 steps at most, and
    an environment whose every step reports termination, the run makes
    exactly 2 episodes of exactly 1 step each.  A run that an exception
    cuts short has reset the environment [NUM_EPISODES] times at most. *)
Theorem train_model_episode_structure :
  (∀ data σ path,
     let r := train_model env_class dqn datetime_now data σ in
     res r = Returned path →
     ∃ setup episodes save,
       trace r = setup ++ concat episodes ++ save ∧
       calls in_loop setup = 0 ∧ calls in_loop save = 0 ∧
       length episodes = NUM_EPISODES ∧
       calls is_reset (trace r) = NUM_EPISODES ∧
       Forall (λ ep,
                 episode_trace env_class dqn MAX_STEPS BATCH_SIZE ep ∧
                 calls is_reset ep = 1 ∧
                 ∃ k, k ≤ MAX_STEPS ∧ iterations k ep) episodes) ∧
  (∀ data σ path,
     let r := train_model_with env_class dqn datetime_now 2 3 BATCH_SIZE
                data σ in
     (∀ a df w s' rw d df' w',
        step env_class a df w = (Returned (s', rw, d), df', w') →
        d = true) →
     res r = Returned path →
     ∃ setup ep1 ep2 save,
       trace r = setup ++ (ep1 ++ ep2) ++ save ∧
       calls in_loop setup = 0 ∧ calls in_loop save = 0 ∧
       one_step_episode env_class dqn BATCH_SIZE ep1 ∧
       one_step_episode env_class dqn BATCH_SIZE ep2 ∧
       calls is_reset (trace r) = 2 ∧ calls is_step (trace r) = 2) ∧
  (∀ data σ,
     calls is_reset (trace (train_model env_class dqn datetime_now data σ))
     ≤ NUM_EPISODES).
Proof.
  split_and!; [| |intros data σ; eapply train_trace_resets,
                                  train_model_with_shape].
  - intros data σ path r Hres. subst r. unfold train_model in *.
    apply train_model_with_returned in Hres
      as (env & w0 & frame & w1 & state0 & w2 & w3 & t & w4 & w5 &
          Htrace & Ht & _).
    apply episodes_trace_split in Ht as (episodes & -> & Hlen & Heps).
    eexists _, episodes, _. split; [exact Htrace|].
    split_and!; [done..| |].
    + rewrite Htrace, !calls_app.
      by rewrite (calls_reset_concat _ _ _ _ _ Heps), Hlen.
    + eapply Forall_impl; [exact Heps|]. intros ep Hep.
      split; [done|]. by eapply episode_trace_iterations.
  - intros data σ path r Hdone Hres. subst r.
    apply train_model_with_returned in Hres
      as (env & w0 & frame & w1 & state0 & w2 & w3 & t & w4 & w5 &
          Htrace & Ht & _).
    apply episodes_trace_split in Ht as (episodes & -> & Hlen & Heps).
    destruct episodes as [|ep1 [|ep2 [|??]]]; try done.
    apply Forall_cons in Heps as [Hep1 Heps].
    apply Forall_cons in Heps as [Hep2 _].
    assert (∀ ep, episode_trace env_class dqn 3 BATCH_SIZE ep →
              one_step_episode env_class dqn BATCH_SIZE ep) as Hone.
    { intros ep [s w s_end t Ht]. exists s, w, s_end, t.
      split; [done|]. by eapply steps_trace_done. }
    apply Hone in Hep1, Hep2. cbn [concat] in Htrace.
    rewrite app_nil_r in Htrace.
    eexists _, ep1, ep2, _. split; [exact Htrace|].
    split_and!; [done..| |]; rewrite Htrace;
      destruct Hep1 as (s1 & u1 & e1 & t1 & -> & Ht1);
      destruct Hep2 as (s2 & u2 & e2 & t2 & -> & Ht2);
      apply step_trace_iterations in Ht1 as [(? & ? & ? & ?) ?];
      apply step_trace_iterations in Ht2 as [(? & ? & ? & ?) ?];
      rewrite !calls_app, !calls_cons; cbn; lia.
Qed.





(** C6.  [train_model] has no handler: an exception raised by any call it
    makes - the column drop, the environment's constructor, the agent's
    constructor, any method of the environment or of the agent - is the
    last call of the run and is what [train_model] raises, unchanged; and
    whatever [train_model] raises is the exception of its last call. *)
Theorem exceptions_propagate_unmodified data σ :
  let r := train_model env_class dqn datetime_now data σ in
  (∀ i x e,
     trace r !! i = Some x → raised x = Some e →
     res r = Raised e ∧ S i = length (trace r)) ∧
  (∀ e, res r = Raised e →
     ∃ x, last (trace r) = Some x ∧ raised x = Some e).
Proof.
  unfold train_model; cbn zeta.
  pose proof (train_model_with_shape env_class dqn datetime_now NUM_EPISODES
                MAX_STEPS BATCH_SIZE data σ) as Hshape.
  cbn zeta in Hshape. apply train_trace_raises_last in Hshape.
  destruct (train_model_with env_class dqn datetime_now NUM_EPISODES
              MAX_STEPS BATCH_SIZE data σ) as [o σ' t].
  cbn [res trace] in *. split.
  - intros i x e Hi Hx. destruct o as [path|e']; cbn in Hshape.
    + eapply Forall_lookup_1 in Hshape; [|done]. cbn in Hshape. congruence.
    + destruct Hshape as (t' & x' & Ht & Ht' & Hx'). rewrite Ht in Hi |- *.
      rewrite length_app; cbn.
      apply lookup_app_Some in Hi as [Hi|[Hlen Hi]].
      * eapply Forall_lookup_1 in Ht'; [|done]. cbn in Ht'. congruence.
      * destruct (i - length t') as [|?] eqn:Hdiff; [|done].
        injection Hi as <-. split; [congruence|lia].
  - intros e ->. destruct Hshape as (t' & x & -> & _ & Hx). exists x.
    by rewrite last_snoc.
Qed.

(** C4.  The label column never reaches the environment.  On a frame that
    has a [target] column the drop returns, as the first call of the run,
    and the second call is the environment's constructor, applied to the
    frame the drop made - the caller's index and columns except that no
    column is labelled [target] - in the world the run started in.  The
    constructor is called that once and nowhere else, on a frame of its
    own, and an exception the run raises is raised by a later call than
    the drop.  What the label column holds is of no consequence: with the
    labels replaced by any other cells (NaN, say) the run returns or raises
    the same, makes the same calls and leaves the same world and
    console. *)
Theorem target_never_reaches_environment data σ df :
  frames σ !! data = Some df →
  let r := train_model env_class dqn datetime_now data σ in
  ("target" ∈ labels df →
   ∃ df' ret frame' w1,
     DataFrame_.drop ["target"] df = Returned df' ∧
     ("target" ∉ labels df') ∧
     index df' = index df ∧
     columns df' = filter (λ col, col.1 ∉ ["target"]) (columns df) ∧
     trace r !! 0
     = Some (EvDrop data ["target"] (Returned (length (frames σ))),
             world σ) ∧
     TradingEnvironment env_class df' (world σ) = (ret, frame', w1) ∧
     trace r !! 1
     = Some (EvTradingEnvironment (length (frames σ)) (Some df') ret, w1) ∧
     calls is_environment (trace r) = 1 ∧
     ∀ e, res r = Raised e →
          ∃ i x, 1 ≤ i ∧ trace r !! i = Some x ∧ raised x = Some e) ∧
  (∀ i env frame ret w,
     trace r !! i = Some (EvTradingEnvironment env frame ret, w) →
     i = 1 ∧ env ≠ data ∧
     ∃ df',
       frame = Some df' ∧
       DataFrame_.drop ["target"] df = Returned df' ∧
       ("target" ∉ labels df') ∧
       index df' = index df ∧
       columns df' = filter (λ col, col.1 ∉ ["target"]) (columns df)) ∧
  (∀ df2,
     DataFrame_.same_but "target" df df2 →
     let r2 := train_model env_class dqn datetime_now data
                 (mkStore (<[data := df2]> (frames σ)) (world σ)
                          (console σ)) in
     res r2 = res r ∧ trace r2 = trace r ∧
     world (final r2) = world (final r) ∧
     console (final r2) = console (final r)).
Proof.
  intros Hdata r.
  assert (Honly : ∀ i env frame ret w,
            trace r !! i = Some (EvTradingEnvironment env frame ret, w) →
            i = 1 ∧ env ≠ data ∧
            ∃ df',
              frame = Some df' ∧
              DataFrame_.drop ["target"] df = Returned df' ∧
              ("target" ∉ labels df') ∧
              index df' = index df ∧
              columns df' = filter (λ col, col.1 ∉ ["target"]) (columns df)).
  { intros i env frame ret w Hi.
    pose proof (train_model_with_shape env_class dqn datetime_now
                  NUM_EPISODES MAX_STEPS BATCH_SIZE data σ) as Hshape.
    cbn zeta in Hshape.
    pose proof (train_trace_setup_order _ _ _ _ _ _ _ _ _ Hshape)
      as (H0 & _ & H2 & H3).
    pose proof (train_trace_setup_early _ _ _ _ _ _ _ _ _ _ _ Hshape Hi
                  eq_refl eq_refl) as Hearly.
    destruct i as [|[|[|[|?]]]]; [| | | |lia].
    + apply H0 in Hi as (? & ? & [=]).
    + split; [done|].
      eapply train_model_with_second_call in Hi
        as (df' & ? & ? & Hdrop & [= -> -> _ _]); [|done].
      split; [apply lookup_lt_Some in Hdata; lia|].
      exists df'. apply drop_returned in Hdrop as Hdf'.
      destruct Hdf' as (? & ? & Hlabels).
      split_and!; [done..|apply Hlabels; by left|done|done].
    + apply H2 in Hi as (? & ? & [=]).
    + apply H3 in Hi as (? & ? & ? & ? & _ & [=]). }
  split_and!; [|exact Honly|].
  - intros Htarget.
    destruct (drop_present _ _ Htarget) as [df' Hdrop].
    destruct (train_model_with_first_calls env_class dqn datetime_now
                NUM_EPISODES MAX_STEPS BATCH_SIZE data σ df df' Hdata Hdrop)
      as (ret & frame' & w1 & t & Henv & Htrace).
    fold (train_model env_class dqn datetime_now data σ) in Htrace.
    fold r in Htrace.
    apply drop_returned in Hdrop as Hdf'. destruct Hdf' as (? & ? & Hlabels).
    exists df', ret, frame', w1.
    split_and!; [done|apply Hlabels; by left|done|done|by rewrite Htrace
                |done|by rewrite Htrace| |].
    + eapply (calls_once _ _ 1); [by rewrite Htrace|done|].
      intros j [[] w] Hj Hy; try done. by apply Honly in Hj as [-> _].
    + intros e Hres.
      pose proof (train_model_with_shape env_class dqn datetime_now
                    NUM_EPISODES MAX_STEPS BATCH_SIZE data σ) as Hshape.
      cbn zeta in Hshape. apply train_trace_raises_last in Hshape.
      fold (train_model env_class dqn datetime_now data σ) in Hshape.
      fold r in Hshape. rewrite Hres in Hshape.
      destruct Hshape as (t' & x & Ht & _ & Hx).
      exists (length t'), x. split_and!; [|by rewrite Ht, list_lookup_middle|done].
      destruct t' as [|? t']; [|cbn; lia].
      rewrite Htrace in Ht. destruct t; done.
  - intros df2 Hsame r2.
    destruct (train_model_with_blind env_class dqn datetime_now NUM_EPISODES
                MAX_STEPS BATCH_SIZE data
                (mkStore (<[data := df2]> (frames σ)) (world σ) (console σ))
                σ df2 df)
      as (Hres & Htrace & Hworld & Hconsole & _).
    + unfold agree_off; cbn. rewrite length_insert. split_and!; [done..|].
      intros l Hl. by apply list_lookup_insert_ne.
    + cbn. apply list_lookup_insert_eq. by eapply lookup_lt_Some.
    + done.
    + symmetry. by apply same_but_drop.
    + done.
Qed.

(** C8.  A step on which the environment reports termination is booked
    like any other before the loop is left: the transition is remembered
    with its termination flag set, the memory is measured and [replay(64)]
    is called if it is longer than the batch size, and the loop then ends
    with the next state as its current state, making no further
    iteration however many remain. *)
Theorem terminal_step_bookkeeping env todo i s σ a w1 df s' rw df' w2 :
  act dqn s (world σ) = (Returned a, w1) →
  frames σ !! env = Some df →
  step env_class a df w1 = (Returned (s', rw, true), df', w2) →
  let run :=
    step_loop env_class dqn MAX_STEPS BATCH_SIZE env (S todo) i s σ in
  let '(o3, w3) := remember dqn s a rw s' true w2 in
  let '(o4, w4) := replay dqn BATCH_SIZE w3 in
  let step_calls : list Entry' :=
    [(EvAct s (Returned a), w1);
     (EvStep a (Returned (s', rw, true)), w2);
     (EvRemember s a rw s' true o3, w3)] in
  match o3 with
  | Raised e => trace run = step_calls ∧ res run = Raised e
  | Returned _ =>
      if decide (BATCH_SIZE < memory_len dqn w3) then
        trace run = step_calls ++ [(EvReplay BATCH_SIZE o4, w4)] ∧
        res run = match o4 with
                  | Returned _ => Returned s'
                  | Raised e => Raised e
                  end ∧
        world (final run) = w4
      else
        trace run = step_calls ∧ res run = Returned s' ∧
        world (final run) = w3
  end.
Proof.
  intros Hact Hframe Hstep. generalize BATCH_SIZE MAX_STEPS.
  intros batch_size max_steps. cbn [step_loop].
  rewrite run_bind. cbn [print res final trace app]. rewrite run_bind.
  unfold step_body. rewrite run_bind.
  erewrite call_model_eq; [|exact Hact]. cbn [res final trace].
  rewrite run_bind.
  erewrite call_env_eq; [|exact Hframe|exact Hstep]. cbn [res final trace].
  rewrite run_bind.
  destruct (remember dqn s a rw s' true w2) as [o3 w3] eqn:Hremember.
  erewrite call_model_eq; [|exact Hremember]. cbn [res final trace app].
  destruct (replay dqn batch_size w3) as [o4 w4] eqn:Hreplay.
  destruct o3 as [[]|e]; [|done].
  rewrite run_bind. cbn [len_memory res final trace app world].
  rewrite run_bind.
  destruct (Nat.ltb_spec batch_size (memory_len dqn w3)); case_decide;
    try lia.
  - erewrite call_model_eq; [|exact Hreplay]. by destruct o4 as [[]|e].
  - done.
Qed.

(** C9.  [train_model] does not change the frame it is given: the drop
    makes a new frame, and whether the run returns or raises, the caller's
    frame holds what it held, its label column included. *)
Theorem caller_frame_untouched data σ df :
  frames σ !! data = Some df →
  frames (final (train_model env_class dqn datetime_now data σ)) !! data
  = Some df.
Proof. apply train_model_with_keeps. Qed.

(** C10.  On a frame without a [target] column, [train_model] raises the
    [KeyError] of the drop and has done nothing else: the drop is the only
    call of the run - no environment, no agent, no episode, no save - no
    path is returned, and the store is as it was, with nothing allocated,
    nothing changed in the world and nothing printed. *)
Theorem missing_target_raises_before_effects data σ df :
  frames σ !! data = Some df →
  "target" ∉ labels df →
  let r := train_model env_class dqn datetime_now data σ in
  ∃ msg,
    res r = Raised (KeyError msg) ∧
    trace r = [(EvDrop data ["target"] (Raised (KeyError msg)), world σ)] ∧
    final r = σ ∧
    calls is_environment (trace r) = 0 ∧ calls is_dqn (trace r) = 0 ∧
    calls in_loop (trace r) = 0 ∧ calls in_save (trace r) = 0.
Proof.
  intros Hdata Hmissing. unfold train_model, train_model_with; cbn zeta.
  rewrite run_bind, (drop_run _ _ _ _ Hdata).
  destruct (drop_missing _ _ Hmissing) as [msg ->]. by exists msg.
Qed.

End Claims.

Section LoaderClaims.

Context {Model : Type}.
Variable deserialize : list Byte.byte → option Model.

(** C7.  [load_existing_model] fails with a file-not-found error when
    nothing is stored under the path and with a deserialization error when
    the artifact there does not decode to a model; it adds nothing to what
    the load does, so the failure reaches the caller as it is, and a model
    is returned only when the stored artifact decodes to it. *)
Theorem load_existing_model_failures (path : string) (fs : FileSystem) :
  load_existing_model deserialize path fs = load_model deserialize path fs ∧
  (fs !! path = None →
   load_existing_model deserialize path fs
   = Raised (FileNotFoundError path)) ∧
  (∀ artifact,
     fs !! path = Some artifact → deserialize artifact = None →
     load_existing_model deserialize path fs
     = Raised (DeserializationError path)) ∧
  (∀ model,
     load_existing_model deserialize path fs = Returned model →
     ∃ artifact, fs !! path = Some artifact ∧
                 deserialize artifact = Some model).
Proof.
  unfold load_existing_model, load_model. split_and!.
  - done.
  - by intros ->.
  - by intros artifact -> ->.
  - intros model. destruct (fs !! path) as [artifact|]; [|done].
    destruct (deserialize artifact) as [model'|] eqn:Hmodel; [|done].
    intros [= ->]. by exists artifact.
Qed.

End LoaderClaims.

(** * The specification on the stub collaborators *)

Section Witnesses.

Import Stub.

Lemma environment_1_always_done a df w s' rw d df' w' :
  step (environment 1) a df w = (Returned (s', rw, d), df', w') → d = true.
Proof.
  cbn. destruct (row (columns df) (S (cursor w))); [|done].
  by intros [= _ _ <- _ _].
Qed.

Lemma train_model_episode_structure_witness :
  (res full_run = Returned
     "src/learning/trained_models/dqn_model_2024-03-05_14-01-50.h5" ∧
   calls is_reset (trace full_run) = 10) ∧
  (res short_run = Returned
     "src/learning/trained_models/dqn_model_2024-03-05_14-00-04.h5" ∧
   calls is_reset (trace short_run) = 2 ∧
   calls is_step (trace short_run) = 2).
Proof.
  split.
  - split; [vm_compute; reflexivity|].
    destruct (proj1 (train_model_episode_structure (environment 100)
                       (agent 2000 false) clock)
                0 (store market) _ ltac:(vm_compute; reflexivity))
      as (? & ? & ? & _ & _ & _ & _ & Hresets & _).
    exact Hresets.
  - split; [vm_compute; reflexivity|].
    destruct (proj1 (proj2 (train_model_episode_structure (environment 1)
                              (agent 2000 false) clock))
                0 (store market) _ environment_1_always_done
                ltac:(vm_compute; reflexivity))
      as (? & ? & ? & ? & _ & _ & _ & _ & _ & Hresets & Hsteps).
    split; [exact Hresets|exact Hsteps].
Defined.



Lemma market_same_but_target :
  DataFrame_.same_but "target" market market_nan_target.
Proof.
  split; [done|]. repeat constructor; cbn; done.
Qed.

Lemma target_never_reaches_environment_witness :
  frames (store market) !! 0 = Some market ∧
  "target" ∈ labels market ∧
  (∃ ret w1,
     trace full_run !! 1
     = Some (EvTradingEnvironment 1
               (Some (mkDataFrame [0; 1; 2]
                        [("close", [Num 100; Num 102; Num 101]);
                         ("volume", [Num 7; Num 9; Num 8])]))
               ret, w1)) ∧
  calls is_environment (trace full_run) = 1 ∧
  res nan_run = res full_run ∧ trace nan_run = trace full_run.
Proof.
  assert (Htarget : "target" ∈ labels market)
    by (apply (bool_decide_unpack _); vm_compute; exact I).
  split; [reflexivity|]. split; [exact Htarget|].
  destruct (target_never_reaches_environment (environment 100)
              (agent 2000 false) clock 0 (store market) market eq_refl)
    as (Hclean & _ & Hblind).
  destruct (Hclean Htarget)
    as (df' & ret & frame' & w1 & Hdrop & _ & _ & _ & _ & _ & Hsecond &
        Honce & _).
  vm_compute in Hdrop. injection Hdrop as <-.
  split; [exists ret, w1; exact Hsecond|].
  split; [exact Honce|].
  destruct (Hblind market_nan_target market_same_but_target)
    as (Hres & Htrace & _).
  split; [exact Hres|exact Htrace].
Defined.


Lemma exceptions_propagate_unmodified_witness :
  res failing_run = Raised (PyExn "ValueError" "loss is nan") ∧
  length (trace failing_run) = 207.
Proof.
  destruct (exceptions_propagate_unmodified (environment 100)
              (agent 2000 true) clock 0 (store market)) as [Hraised _].
  edestruct (Hraised 206) as [Hres Hlen];
    [vm_compute; reflexivity|vm_compute; reflexivity|].
  split; [exact Hres|symmetry; exact Hlen].
Defined.

Lemma load_existing_model_failures_witness :
  load_existing_model decode "missing.h5" disk
  = Raised (FileNotFoundError "missing.h5") ∧
  load_existing_model decode "broken.h5" disk
  = Raised (DeserializationError "broken.h5").
Proof.
  split.
  - apply (load_existing_model_failures decode "missing.h5" disk).
    vm_compute. reflexivity.
  - eapply (load_existing_model_failures decode "broken.h5" disk);
      [vm_compute; reflexivity|reflexivity].
Defined.

Lemma terminal_step_bookkeeping_witness :
  let run :=
    step_loop (environment 1) (agent 2000 false) MAX_STEPS BATCH_SIZE
      0 3 0 [100%Z; 7%Z] (store unlabelled) in
  trace run =
    [(EvAct [100%Z; 7%Z] (Returned 2), world0);
     (EvStep 2 (Returned ([102%Z; 9%Z], 2%Z, true)), mkWorld 1 0 0 1 []);
     (EvRemember [100%Z; 7%Z] 2 2%Z [102%Z; 9%Z] true (Returned tt),
      mkWorld 1 1 0 1 [])] ∧
  res run = Returned [102%Z; 9%Z] ∧
  world (final run) = mkWorld 1 1 0 1 [].
Proof.
  exact (terminal_step_bookkeeping (environment 1) (agent 2000 false)
           0 2 0 [100%Z; 7%Z] (store unlabelled) 2 world0 unlabelled
           [102%Z; 9%Z] 2%Z unlabelled (mkWorld 1 0 0 1 [])
           eq_refl eq_refl eq_refl).
Defined.

Lemma caller_frame_untouched_witness :
  frames (store market) !! 0 = Some market ∧
  frames (final full_run) !! 0 = Some market.
Proof.
  split; [reflexivity|].
  exact (caller_frame_untouched (environment 100) (agent 2000 false) clock
           0 (store market) market eq_refl).
Defined.

Lemma unlabelled_has_no_target : "target" ∉ labels unlabelled.
Proof. apply (bool_decide_unpack _). vm_compute. exact I. Qed.

Lemma missing_target_raises_before_effects_witness :
  ∃ msg,
    res unlabelled_run = Raised (KeyError msg) ∧
    final unlabelled_run = store unlabelled ∧
    length (trace unlabelled_run) = 1.
Proof.
  destruct (missing_target_raises_before_effects (environment 100)
              (agent 2000 false) clock 0 (store unlabelled) unlabelled
              eq_refl unlabelled_has_no_target)
    as (msg & Hres & Htrace & Hfinal & _).
  exists msg. split_and!; [exact Hres|exact Hfinal|].
  unfold unlabelled_run. by rewrite Htrace.
Defined.

End Witnesses.

(** * Further properties of the shape of a run *)

Section TraceReadings.

Context {Feature Action Reward W : Type}.
Variable env_class : EnvironmentClass (list Feature) Action Reward W.
Variable dqn : DQNClass (list Feature) Action Reward W.
Variable datetime_now : W → datetime.
Variables num_episodes max_steps batch_size : nat.

Abbreviation Entry' := (@Event Feature Action Reward * W)%type.
Abbreviation step_trace' := (step_trace env_class dqn batch_size).
Abbreviation steps_trace' := (steps_trace env_class dqn batch_size).
Abbreviation episode_trace' := (episode_trace env_class dqn max_steps batch_size).
Abbreviation episodes_trace' :=
  (episodes_trace env_class dqn max_steps batch_size).
Abbreviation train_trace' :=
  (train_trace env_class dqn datetime_now num_episodes max_steps batch_size).

(** *** How many calls *)

Lemma begun_nil : begun 0 ([] : list Entry').
Proof. by repeat split. Qed.

Lemma begun_app k1 k2 (t1 t2 : list Entry') :
  begun k1 t1 → begun k2 t2 → begun (k1 + k2) (t1 ++ t2).
Proof.
  intros (? & ? & ? & ?) (? & ? & ? & ?). unfold begun.
  rewrite !calls_app. split_and!; lia.
Qed.

Lemma begun_le k1 k2 (t : list Entry') : k1 ≤ k2 → begun k1 t → begun k2 t.
Proof. intros ? (? & ? & ? & ?). unfold begun. split_and!; lia. Qed.

(** A call outside the iterations does not count. *)
Lemma begun_cons k (x : Entry') t :
  is_act x = false → is_step x = false → is_remember x = false →
  is_replay x = false → begun k t → begun k (x :: t).
Proof.
  intros Hact Hstep Hremember Hreplay (? & ? & ? & ?). unfold begun.
  rewrite !calls_cons, Hact, Hstep, Hremember, Hreplay. split_and!; lia.
Qed.

Lemma step_trace_begun s o t : step_trace' s o t → begun 1 t ∧ length t ≤ 4.
Proof. destruct 1; unfold begun; cbn; split_and!; lia. Qed.

Lemma steps_trace_begun cap s o t :
  steps_trace' cap s o t → begun cap t ∧ length t ≤ 4 * cap.
Proof.
  induction 1 as [|cap s e t Ht|cap s s' t Ht|cap s s' t o t' Ht _ [IH1 IH2]].
  - split; [apply begun_nil|cbn; lia].
  - apply step_trace_begun in Ht as [??].
    split; [eapply begun_le; [|done]|]; lia.
  - apply step_trace_begun in Ht as [??].
    split; [eapply begun_le; [|done]|]; lia.
  - apply step_trace_begun in Ht as [??].
    split; [by apply (begun_app 1 cap)|]. rewrite length_app. lia.
Qed.

Lemma episodes_trace_begun n o t :
  episodes_trace' n o t →
  begun (n * max_steps) t ∧ length t ≤ n * (1 + 4 * max_steps).
Proof.
  induction 1 as [|n e w|n s w e t Ht|n ep o t [s w s_end t' Ht'] _ [IH1 IH2]].
  - split; [apply begun_nil|cbn; lia].
  - split; [|cbn; lia]. apply begun_cons; try done.
    eapply begun_le; [|apply begun_nil]. lia.
  - apply steps_trace_begun in Ht as [??]. split; [|cbn; lia].
    apply begun_cons; try done. eapply begun_le; [|done]. lia.
  - apply steps_trace_begun in Ht' as [??]. split.
    + apply (begun_app max_steps (n * max_steps) (_ :: _)); [|done].
      by apply begun_cons.
    + rewrite length_app. cbn. lia.
Qed.

Lemma train_trace_begun data o t :
  train_trace' data o t →
  begun (num_episodes * max_steps) t ∧
  length t ≤ 6 + num_episodes * (1 + 4 * max_steps).
Proof.
  destruct 1 as [| | | |????????? Heps|??????????? Heps|?????????? Heps];
    try (split; [|cbn; lia]; repeat (apply begun_cons; [done..|]);
         eapply begun_le; [|apply begun_nil]; lia);
    apply episodes_trace_begun in Heps as [Hbegun Hlen];
    (split; [|rewrite !length_app; cbn; lia]);
    repeat (apply begun_cons; [done..|]).
  - done.
  - rewrite <-(Nat.add_0_r (_ * _)). apply begun_app; [done|].
    repeat (apply begun_cons; [done..|]). apply begun_nil.
  - rewrite <-(Nat.add_0_r (_ * _)). apply begun_app; [done|].
    repeat (apply begun_cons; [done..|]). apply begun_nil.
Qed.

(** *** The closing calls *)

Lemma in_loop_not_in_save (x : Entry') : in_loop x = true → in_save x = false.
Proof. by destruct x as [[] ?]. Qed.

(** A closing call is one of the last two calls of the run, and all the
    episodes have been completed before it. *)
Lemma train_trace_save_late data o t i x :
  train_trace' data o t → t !! i = Some x → in_save x = true →
  ∃ t0 w4 ret w5,
    t = t0 ++ save_trace datetime_now w4 ret w5 ∧
    length t0 ≤ i ∧ all_returned t0 ∧ calls is_reset t0 = num_episodes.
Proof.
  intros Ht Hi Hx.
  destruct Ht as [| | | |env w0 frame w1 state0 w2 w3 e t Heps
                  |env w0 frame w1 state0 w2 w3 t w4 e w5 Heps
                  |env w0 frame w1 state0 w2 w3 t w4 w5 Heps];
    try (destruct i as [|[|[|[|?]]]]; cbn in Hi; by simplify_eq).
  - apply episodes_trace_in_loop in Heps.
    destruct i as [|[|[|[|i]]]]; cbn in Hi; simplify_eq; try done.
    eapply Forall_lookup_1 in Heps; [|done].
    apply in_loop_not_in_save in Heps. congruence.
  - exists (setup_trace data env w0 frame w1 state0 w2 w3 ++ t), w4, (Raised e), w5.
    pose proof (episodes_trace_in_loop _ _ _ _ _ _ _ Heps) as Hloop.
    pose proof (episodes_trace_raises_last _ _ _ _ _ _ _ Heps) as Hret.
    apply episodes_trace_split in Heps as (episodes & -> & <- & Heps).
    split_and!.
    + by rewrite (assoc_L (++)).
    + destruct (decide (length (setup_trace data env w0 frame w1 state0 w2 w3
                                ++ concat episodes) ≤ i)) as [|Hlt]; [done|].
      exfalso. rewrite (assoc_L (++)), lookup_app_l in Hi by lia.
      destruct i as [|[|[|[|i]]]]; cbn in Hi; simplify_eq; try done.
      eapply Forall_lookup_1 in Hloop; [|done].
      apply in_loop_not_in_save in Hloop. congruence.
    + apply Forall_app. split; [by repeat constructor|done].
    + rewrite calls_app. cbn. by eapply calls_reset_concat.
  - exists (setup_trace data env w0 frame w1 state0 w2 w3 ++ t), w4,
      (Returned tt), w5.
    pose proof (episodes_trace_in_loop _ _ _ _ _ _ _ Heps) as Hloop.
    pose proof (episodes_trace_raises_last _ _ _ _ _ _ _ Heps) as Hret.
    apply episodes_trace_split in Heps as (episodes & -> & <- & Heps).
    split_and!.
    + by rewrite (assoc_L (++)).
    + destruct (decide (length (setup_trace data env w0 frame w1 state0 w2 w3
                                ++ concat episodes) ≤ i)) as [|Hlt]; [done|].
      exfalso. rewrite (assoc_L (++)), lookup_app_l in Hi by lia.
      destruct i as [|[|[|[|i]]]]; cbn in Hi; simplify_eq; try done.
      eapply Forall_lookup_1 in Hloop; [|done].
      apply in_loop_not_in_save in Hloop. congruence.
    + apply Forall_app. split; [by repeat constructor|done].
    + rewrite calls_app. cbn. by eapply calls_reset_concat.
Qed.

(** *** Transitions *)

Lemma lookup_app_shift (t1 t2 : list Entry') k :
  (t1 ++ t2) !! (length t1 + k) = t2 !! k.
Proof. rewrite lookup_app_r by lia. f_equal. lia. Qed.

Lemma booked_app_l (t1 t2 : list Entry') i :
  i < length t1 → booked t1 i → booked (t1 ++ t2) i.
Proof.
  intros [[ev w] Hi]%lookup_lt_is_Some_2. unfold booked.
  rewrite Hi, (lookup_app_l_Some _ _ _ _ Hi).
  destruct ev as [| | | | |s [a|]|a ret|s a r s' d ret| | |]; try done.
  - intros (ret & w' & Hstep). exists ret, w'. by apply lookup_app_l_Some.
  - intros (j & s & w1 & -> & Hact & Hret). exists j, s, w1.
    split_and!; [done|by apply lookup_app_l_Some|].
    destruct ret as [[[s' r] d]|]; [|done].
    destruct Hret as (o & w3 & Hremember). exists o, w3.
    by apply lookup_app_l_Some.
  - intros (j & w1 & w2 & -> & Hact & Hstep). exists j, w1, w2.
    split_and!; [done|by apply lookup_app_l_Some..].
Qed.

Lemma booked_app_r (t1 t2 : list Entry') k :
  booked t2 k → booked (t1 ++ t2) (length t1 + k).
Proof.
  unfold booked. rewrite lookup_app_shift.
  destruct (t2 !! k) as [[ev w]|]; [|done].
  destruct ev as [| | | | |s [a|]|a ret|s a r s' d ret| | |]; try done.
  - intros (ret & w' & Hstep). exists ret, w'.
    by rewrite <-Nat.add_succ_r, lookup_app_shift.
  - intros (j & s & w1 & -> & Hact & Hret). exists (length t1 + j), s, w1.
    split_and!; [lia|by rewrite lookup_app_shift|].
    destruct ret as [[[s' r] d]|]; [|done].
    destruct Hret as (o & w3 & Hremember). exists o, w3.
    by rewrite <-Nat.add_succ_r, lookup_app_shift.
  - intros (j & w1 & w2 & -> & Hact & Hstep). exists (length t1 + j), w1, w2.
    split_and!; [lia|by rewrite lookup_app_shift|].
    by rewrite <-Nat.add_succ_r, lookup_app_shift.
Qed.

Lemma booked_app (t1 t2 : list Entry') :
  (∀ i, booked t1 i) → (∀ i, booked t2 i) → ∀ i, booked (t1 ++ t2) i.
Proof.
  intros H1 H2 i. destruct (decide (i < length t1)) as [Hi|Hi].
  - by apply booked_app_l.
  - replace i with (length t1 + (i - length t1)) by lia. apply booked_app_r, H2.
Qed.

(** A call outside the iterations, on its own. *)
Lemma booked_other (x : Entry') :
  is_act x = false → is_step x = false → is_remember x = false →
  ∀ i, booked [x] i.
Proof.
  intros Hact Hstep Hremember [|i]; [|done]. unfold booked; cbn.
  by destruct x as [[] ?].
Qed.

Lemma step_trace_booked s o t : step_trace' s o t → ∀ i, booked t i.
Proof.
  destruct 1; intros [|[|[|[|?]]]]; unfold booked; cbn; try done;
    by eauto 10.
Qed.

Lemma steps_trace_booked cap s o t : steps_trace' cap s o t → ∀ i, booked t i.
Proof.
  induction 1; [done|by eapply step_trace_booked..|].
  apply booked_app; [by eapply step_trace_booked|done].
Qed.

Lemma episode_trace_booked ep : episode_trace' ep → ∀ i, booked ep i.
Proof.
  destruct 1 as [s w s_end t Ht].
  apply (booked_app [_]); [by apply booked_other|].
  by eapply steps_trace_booked.
Qed.

Lemma episodes_trace_booked n o t : episodes_trace' n o t → ∀ i, booked t i.
Proof.
  induction 1 as [|n e w|n s w e t Ht|n ep o t Hep _ IH].
  - done.
  - by apply booked_other.
  - apply (booked_app [_]); [by apply booked_other|].
    by eapply steps_trace_booked.
  - apply booked_app; [by apply episode_trace_booked|done].
Qed.

Local Ltac booked_calls :=
  repeat first
    [ by apply booked_other
    | match goal with |- ∀ i, booked (?x :: ?t) i =>
        lazymatch t with
        | [] => fail
        | _ => apply (booked_app [x] t); [by apply booked_other|]
        end
      end ].

Lemma train_trace_booked data o t : train_trace' data o t → ∀ i, booked t i.
Proof.
  destruct 1 as [| | | |????????? Heps|??????????? Heps|?????????? Heps];
    unfold setup_trace, save_trace; cbn [app]; booked_calls.
  - by eapply episodes_trace_booked.
  - apply booked_app; [by eapply episodes_trace_booked|]. booked_calls.
  - apply booked_app; [by eapply episodes_trace_booked|]. booked_calls.
Qed.

(** *** The current observation *)

Lemma acts_on_latest_app cur (t1 t2 : list Entry') :
  acts_on_latest cur t1 → acts_on_latest (foldl observe cur t1) t2 →
  acts_on_latest cur (t1 ++ t2).
Proof.
  intros H1 H2 i s ret w [Hi|[Hlen Hi]]%lookup_app_Some.
  - rewrite take_app_le by (apply lookup_lt_Some in Hi; lia). by eapply H1.
  - rewrite take_app_ge, foldl_app by done. by eapply H2.
Qed.

(** A call that is not an [act], on its own. *)
Lemma acts_on_latest_other cur (x : Entry') :
  is_act x = false → acts_on_latest cur [x].
Proof. intros Hx [|i] s ret w; [|done]. cbn. by intros [= ->]. Qed.

Lemma step_trace_acts_on_latest s o t :
  step_trace' s o t →
  acts_on_latest (Some s) t ∧
  ∀ s' d, o = Returned (s', d) →
          foldl observe (Some s) t = if d then None else Some s'.
Proof.
  destruct 1; (split; [|intros ?? [=]; by subst]);
    intros [|[|[|[|?]]]] ???; cbn; intros; by simplify_eq.
Qed.

Lemma steps_trace_acts_on_latest cap s o t :
  steps_trace' cap s o t → acts_on_latest (Some s) t.
Proof.
  induction 1 as [|cap s e t Ht|cap s s' t Ht|cap s s' t o t' Ht _ IH].
  - by intros [|?] ???.
  - by apply step_trace_acts_on_latest in Ht as [? _].
  - by apply step_trace_acts_on_latest in Ht as [? _].
  - apply step_trace_acts_on_latest in Ht as [? Hobs].
    apply acts_on_latest_app; [done|]. by rewrite (Hobs _ _ eq_refl).
Qed.

Lemma episode_trace_acts_on_latest cur ep :
  episode_trace' ep → acts_on_latest cur ep.
Proof.
  destruct 1 as [s w s_end t Ht].
  apply (acts_on_latest_app _ [_]); [by apply acts_on_latest_other|].
  by eapply steps_trace_acts_on_latest.
Qed.

Lemma episodes_trace_acts_on_latest cur n o t :
  episodes_trace' n o t → acts_on_latest cur t.
Proof.
  intros H. revert cur.
  induction H as [|n e w|n s w e t Ht|n ep o t Hep _ IH]; intros cur.
  - by intros [|?] ???.
  - by apply acts_on_latest_other.
  - apply (acts_on_latest_app _ [_]); [by apply acts_on_latest_other|].
    by eapply steps_trace_acts_on_latest.
  - apply acts_on_latest_app; [by apply episode_trace_acts_on_latest|done].
Qed.

Local Ltac latest_calls :=
  repeat first
    [ by apply acts_on_latest_other
    | match goal with |- acts_on_latest _ (?x :: ?t) =>
        lazymatch t with
        | [] => fail
        | _ =>
            apply (acts_on_latest_app _ [x] t);
            [by apply acts_on_latest_other|]
        end
      end ].

Lemma train_trace_acts_on_latest cur data o t :
  train_trace' data o t → acts_on_latest cur t.
Proof.
  destruct 1 as [| | | |????????? Heps|??????????? Heps|?????????? Heps];
    unfold setup_trace, save_trace; cbn [app]; latest_calls.
  - by eapply episodes_trace_acts_on_latest.
  - apply acts_on_latest_app; [by eapply episodes_trace_acts_on_latest|].
    latest_calls.
  - apply acts_on_latest_app; [by eapply episodes_trace_acts_on_latest|].
    latest_calls.
Qed.

End TraceReadings.

(** * Further properties of the store *)

Section StoreReadings.

Context {Feature Action Reward W : Type}.
Variable env_class : EnvironmentClass (list Feature) Action Reward W.
Variable dqn : DQNClass (list Feature) Action Reward W.
Variable datetime_now : W → datetime.
Variables num_episodes max_steps batch_size : nat.

Abbreviation Comp := (@M Feature Action Reward W).
Abbreviation Entry' := (@Event Feature Action Reward * W)%type.

(** *** What is printed *)

Lemma silent_ret {X} (x : X) : silent (mret x : Comp X).
Proof. done. Qed.

Lemma silent_bind {X Y} (m : Comp X) (k : X → Comp Y) :
  silent m → (∀ x, silent (k x)) → silent (m ≫= k).
Proof.
  intros Hm Hk σ. rewrite run_bind. destruct (res (m σ)) as [x|e]; cbn; [|done].
  by rewrite Hk.
Qed.

Lemma silent_call_model {X} (ev : outcome X → Event) op :
  silent (call_model ev op : Comp X).
Proof. intros σ. unfold call_model. by destruct (op (world σ)). Qed.

Lemma silent_call_env {X} env (ev : outcome X → Event) op :
  silent (call_env env ev op : Comp X).
Proof.
  intros σ. unfold call_env. destruct (frames σ !! env); [|done].
  by destruct (op _ _) as [[??]?].
Qed.

Lemma silent_step_body env s :
  silent (step_body env_class dqn batch_size env s).
Proof.
  unfold step_body.
  repeat first
    [ apply silent_bind; [|intros ?]
    | apply silent_ret
    | apply silent_call_model
    | apply silent_call_env
    | done
    | match goal with |- silent (match ?x with _ => _ end) => destruct x end
    | match goal with |- silent (if ?b then _ else _) => destruct b end ].
Qed.

Lemma silent_quiet {X} (m : Comp X) : silent m → quiet m.
Proof.
  intros Hm σ. exists []. rewrite Hm, app_nil_r. split; [done|]. by intros ?%elem_of_nil.
Qed.

Lemma quiet_print line : line ≠ saved_line → quiet (print line : Comp unit).
Proof.
  intros Hline σ. exists [line]. split; [done|].
  intros Hin%list_elem_of_singleton. by apply Hline.
Qed.

Lemma quiet_bind {X Y} (m : Comp X) (k : X → Comp Y) :
  quiet m → (∀ x, quiet (k x)) → quiet (m ≫= k).
Proof.
  intros Hm Hk σ. rewrite run_bind. destruct (Hm σ) as (lines1 & Hc1 & H1).
  destruct (res (m σ)) as [x|e]; cbn; [|by exists lines1].
  destruct (Hk x (final (m σ))) as (lines2 & Hc2 & H2).
  exists (lines1 ++ lines2). rewrite Hc2, Hc1, (assoc_L (++)).
  split; [done|]. by intros [?|?]%elem_of_app.
Qed.

Lemma finishes_bind {X Y} (m : Comp X) (k : X → Comp Y) :
  quiet m → (∀ x, finishes (k x)) → finishes (m ≫= k).
Proof.
  intros Hm Hk σ. rewrite run_bind. destruct (Hm σ) as (lines1 & Hc1 & H1).
  destruct (res (m σ)) as [x|e]; cbn.
  - destruct (Hk x (final (m σ))) as (lines2 & Hc2 & H2).
    exists (lines1 ++ lines2). rewrite Hc2, Hc1, (assoc_L (++)).
    split; [done|]. rewrite elem_of_app, <-H2. tauto.
  - exists lines1. split; [done|]. split; [done|]. by intros [? [=]].
Qed.

Lemma episode_line_not_saved n i : episode_line n i ≠ saved_line.
Proof. done. Qed.

Lemma step_line_not_saved n i : step_line n i ≠ saved_line.
Proof. done. Qed.

Lemma silent_drop data cols : silent (drop data cols : Comp nat).
Proof.
  intros σ. unfold drop.
  by destruct (frames σ !! data) as [df|]; [destruct (DataFrame_.drop _ df)|].
Qed.

Lemma quiet_step_loop env todo i s :
  quiet (step_loop env_class dqn max_steps batch_size env todo i s).
Proof.
  revert i s. induction todo as [|todo IH]; intros i s; cbn [step_loop].
  - by apply silent_quiet.
  - apply quiet_bind; [apply quiet_print, step_line_not_saved|intros _].
    apply quiet_bind; [apply silent_quiet, silent_step_body|intros [s' []]];
      [by apply silent_quiet|apply IH].
Qed.

Lemma quiet_episode_loop env todo i :
  quiet (episode_loop env_class dqn num_episodes max_steps batch_size env
           todo i).
Proof.
  revert i. induction todo as [|todo IH]; intros i; cbn [episode_loop].
  - by apply silent_quiet.
  - apply quiet_bind; [apply quiet_print, episode_line_not_saved|intros _].
    apply quiet_bind; [apply silent_quiet, silent_call_env|intros s].
    apply quiet_bind; [apply quiet_step_loop|intros _]. apply IH.
Qed.

Lemma finishes_train_model_with data :
  finishes (train_model_with env_class dqn datetime_now num_episodes
              max_steps batch_size data).
Proof.
  unfold train_model_with.
  apply finishes_bind; [apply silent_quiet, silent_drop|intros env].
  apply finishes_bind; [by apply quiet_print|intros _].
  apply finishes_bind; [by apply silent_quiet|intros frame].
  apply finishes_bind; [apply silent_quiet, silent_call_env|intros _].
  apply finishes_bind; [apply silent_quiet, silent_call_env|intros state0].
  apply finishes_bind; [by apply quiet_print|intros _].
  apply finishes_bind; [apply silent_quiet, silent_call_model|intros _].
  apply finishes_bind; [by apply quiet_print|intros _].
  apply finishes_bind; [apply quiet_episode_loop|intros _].
  apply finishes_bind; [by apply silent_quiet|intros d].
  apply finishes_bind; [apply silent_quiet, silent_call_model|intros _].
  intros σ. exists [saved_line]. split; [done|].
  split; [by eexists|]. intros _. by left.
Qed.

(** The lines of the step loop: one per iteration begun, numbered from the
    step it starts at. *)
Lemma step_trace_one_act s o t :
  step_trace env_class dqn batch_size s o t → calls is_act t = 1.
Proof. by destruct 1. Qed.

Lemma step_loop_console env todo i s σ :
  let r := step_loop env_class dqn max_steps batch_size env todo i s σ in
  ∃ k, k ≤ todo ∧
       console (final r) = console σ ++ (step_line max_steps <$> seq (S i) k) ∧
       calls is_act (trace r) = k.
Proof.
  revert i s σ. induction todo as [|todo IH]; intros i s σ.
  { exists 0. split_and!; [done|by rewrite app_nil_r|done]. }
  cbn [step_loop]. rewrite run_bind. cbn [print res final trace app].
  rewrite run_bind, Nat.add_1_r.
  match goal with |- context [step_body _ _ _ _ _ ?σ1] =>
    pose proof (silent_step_body env s σ1) as Hconsole;
    pose proof (step_body_shape env_class dqn batch_size env s σ1) as Hshape;
    destruct (step_body env_class dqn batch_size env s σ1) as [[[s' d]|e] σ2 t]
  end; cbn [res final trace console] in *; apply step_trace_one_act in Hshape.
  - destruct d; unfold mret, M_ret; cbn [res final trace].
    + exists 1. rewrite app_nil_r. split_and!; [lia|done..].
    + destruct (IH (S i) s' σ2) as (k & Hk & Hlines & Hacts). exists (S k).
      rewrite Hlines, Hconsole, calls_app, Hshape, Hacts, <-(assoc_L (++)).
      split_and!; [lia|done..].
  - exists 1. split_and!; [lia|done..].
Qed.

(** The lines of the episode loop, when it returns. *)
Lemma episode_loop_console env todo i σ :
  let r := episode_loop env_class dqn num_episodes max_steps batch_size env
             todo i σ in
  res r = Returned tt →
  ∃ ks, length ks = todo ∧ Forall (λ k, k ≤ max_steps) ks ∧
        console (final r) =
          console σ ++
          concat (imap (λ j k, episode_lines num_episodes max_steps
                                 (S (i + j)) k) ks) ∧
        calls is_act (trace r) = sum_list ks.
Proof.
  revert i σ. induction todo as [|todo IH]; intros i σ.
  { exists []. split_and!; [done..|by rewrite app_nil_r|done]. }
  cbn [episode_loop]. rewrite run_bind. cbn [print res final trace app].
  rewrite run_bind, Nat.add_1_r.
  match goal with |- context [call_env ?l ?ev ?op ?σ1] =>
    destruct (call_env_run l ev op σ1) as ([s|e] & w1 & fs & -> & _)
  end; cbn [res final trace console]; [|done].
  rewrite run_bind.
  match goal with |- context [step_loop _ _ _ _ _ _ _ _ ?σ1] =>
    destruct (step_loop_console env max_steps 0 s σ1)
      as (k & Hk & Hlines & Hacts);
    destruct (step_loop env_class dqn max_steps batch_size env max_steps 0 s
                σ1) as [[s_end|e] σ3 t]
  end; cbn [res final trace console app] in *; [|done].
  intros Hres. destruct (IH (S i) σ3 Hres) as (ks & Hlen & Hks & Hrest & Hsum).
  exists (k :: ks). split_and!.
  - cbn. by rewrite Hlen.
  - by constructor.
  - rewrite Hrest, Hlines, imap_cons, Nat.add_0_r. cbn [concat].
    unfold episode_lines at 2. rewrite <-!(assoc_L (++)). cbn [app].
    do 4 f_equal. apply imap_ext. intros j ? _. cbn. by rewrite Nat.add_succ_r.
  - rewrite calls_cons, calls_app, Hacts, Hsum. by cbn.
Qed.

End StoreReadings.

(** * Further properties of whole runs *)

Section RunReadings.

Context {Feature Action Reward W : Type}.
Variable env_class : EnvironmentClass (list Feature) Action Reward W.
Variable dqn : DQNClass (list Feature) Action Reward W.
Variable datetime_now : W → datetime.
Variables num_episodes max_steps batch_size : nat.

Abbreviation Comp := (@M Feature Action Reward W).
Abbreviation Entry' := (@Event Feature Action Reward * W)%type.

(** The lines of a run that returns. *)
Lemma train_model_with_console data σ path :
  let r := train_model_with env_class dqn datetime_now num_episodes max_steps
             batch_size data σ in
  res r = Returned path →
  ∃ ks, length ks = num_episodes ∧ Forall (λ k, k ≤ max_steps) ks ∧
        console (final r) =
          console σ ++ progress_lines num_episodes max_steps ks ∧
        calls is_act (trace r) = sum_list ks.
Proof.
  unfold train_model_with. cbn zeta. rewrite run_bind.
  assert (∃ o fs, drop data ["target"] σ =
            mkRun o (mkStore fs (world σ) (console σ))
              [((EvDrop data ["target"] o, world σ) : Entry')])
    as (o & fs & ->).
  { unfold drop. destruct (frames σ !! data) as [df|];
      [destruct (DataFrame_.drop _ df)|]; destruct σ; eauto. }
  destruct o as [env|e]; cbn [res final trace]; [|done].
  rewrite run_bind. cbn [print res final trace app]. rewrite run_bind.
  cbn [frame_at res final trace app]. rewrite run_bind.
  match goal with |- context [call_env ?l ?ev ?op ?σ1] =>
    destruct (call_env_run l ev op σ1) as ([[]|e] & w1 & fs1 & -> & _)
  end; cbn [res final trace app console]; [|done].
  rewrite run_bind.
  match goal with |- context [call_env ?l ?ev ?op ?σ1] =>
    destruct (call_env_run l ev op σ1) as ([state0|e] & w2 & fs2 & -> & _)
  end; cbn [res final trace app console]; [|done].
  rewrite run_bind. cbn [print res final trace app console]. rewrite run_bind.
  match goal with |- context [call_model ?ev ?op ?σ1] =>
    destruct (call_model_run ev op σ1) as ([[]|e] & w3 & ->)
  end; cbn [res final trace app console frames world]; [|done].
  rewrite run_bind. cbn [print res final trace app console]. rewrite run_bind.
  match goal with |- context [episode_loop _ _ _ _ _ _ _ _ ?σ1] =>
    pose proof (episode_loop_console env_class dqn num_episodes max_steps
                  batch_size env num_episodes 0 σ1) as Hloop;
    destruct (episode_loop env_class dqn num_episodes max_steps batch_size
                env num_episodes 0 σ1) as [[[]|e] σ4 t]
  end; cbn [res final trace app console] in *; [|done].
  destruct (Hloop eq_refl) as (ks & Hlen & Hks & Hlines & Hacts).
  rewrite run_bind. cbn [now res final trace app]. rewrite run_bind.
  match goal with |- context [call_model ?ev ?op ?σ1] =>
    destruct (call_model_run ev op σ1) as ([[]|e] & w5 & ->)
  end; cbn [res final trace app console]; [|done].
  rewrite run_bind. cbn [print mret M_ret res final trace app console].
  intros _. exists ks. split_and!; [done..| |].
  - rewrite Hlines. unfold progress_lines. rewrite <-!(assoc_L (++)).
    cbn [app]. done.
  - rewrite !calls_cons, calls_app, Hacts. cbn. lia.
Qed.

(** *** Worlds *)

Lemma last_world_app w0 (t1 t2 : list Entry') :
  last_world w0 (t1 ++ t2) = last_world (last_world w0 t1) t2.
Proof. unfold last_world. rewrite last_app. by destruct (last t2). Qed.

Lemma last_world_cons w0 (x : Entry') t :
  last_world w0 (x :: t) = last_world x.2 t.
Proof.
  unfold last_world. destruct t as [|y t]; [done|]. rewrite last_cons_cons.
  by destruct (last (y :: t)) eqn:Hlast; [|apply last_None in Hlast].
Qed.

Lemma genuine_from_app w0 (t1 t2 : list Entry') :
  genuine_from env_class dqn datetime_now w0 t1 →
  genuine_from env_class dqn datetime_now (last_world w0 t1) t2 →
  genuine_from env_class dqn datetime_now w0 (t1 ++ t2).
Proof.
  revert w0. induction t1 as [|x t1 IH]; intros w0; [done|].
  intros [Hx H1] H2. split; [done|]. apply IH; [done|].
  by rewrite <-(last_world_cons w0).
Qed.

Lemma genuine_from_head w0 (t : list Entry') x :
  genuine_from env_class dqn datetime_now w0 t → t !! 0 = Some x →
  genuine env_class dqn datetime_now w0 x.
Proof. destruct t as [|x' t]; [done|]. by intros [? _] [= <-]. Qed.

Lemma genuine_from_lookup w0 (t : list Entry') i x y :
  genuine_from env_class dqn datetime_now w0 t →
  t !! i = Some x → t !! S i = Some y →
  genuine env_class dqn datetime_now x.2 y.
Proof.
  revert w0 i. induction t as [|x0 t IH]; intros w0 i; [done|].
  intros [_ Hg]. destruct i as [|i]; cbn.
  - intros [= ->]. destruct t as [|y' t]; [done|]. cbn. intros [= ->].
    by destruct Hg.
  - by apply (IH x0.2).
Qed.

Lemma honest_ret env {X} (x : X) :
  honest env_class dqn datetime_now env (mret x : Comp X).
Proof. by intros σ _. Qed.

Lemma honest_bind env {X Y} (m : Comp X) (k : X → Comp Y) :
  honest env_class dqn datetime_now env m →
  (∀ x, honest env_class dqn datetime_now env (k x)) →
  honest env_class dqn datetime_now env (m ≫= k).
Proof.
  intros Hm Hk σ Henv. rewrite run_bind.
  destruct (Hm σ Henv) as (Hg1 & Hw1 & Hn1).
  destruct (res (m σ)) as [x|e]; cbn [res final trace]; [|done].
  destruct (Hk x (final (m σ))) as (Hg2 & Hw2 & Hn2); [lia|].
  split_and!.
  - apply genuine_from_app; [done|]. by rewrite <-Hw1.
  - by rewrite last_world_app, <-Hw1.
  - lia.
Qed.

Lemma honest_print env line :
  honest env_class dqn datetime_now env (print line : Comp unit).
Proof. by intros σ _. Qed.

Lemma honest_len_memory env :
  honest env_class dqn datetime_now env (len_memory dqn : Comp nat).
Proof. by intros σ _. Qed.

Lemma honest_now env :
  honest env_class dqn datetime_now env (now datetime_now : Comp datetime).
Proof. by intros σ _. Qed.

Lemma honest_call_model env {X} (ev : outcome X → Event) op :
  (∀ w0 o w, op w0 = (o, w) →
     genuine env_class dqn datetime_now w0 ((ev o, w) : Entry')) →
  honest env_class dqn datetime_now env (call_model ev op : Comp X).
Proof.
  intros Hev σ _. unfold call_model.
  destruct (op (world σ)) as [o w] eqn:Hop. cbn.
  split_and!; try done. by apply Hev.
Qed.

Lemma honest_call_env env {X} (ev : outcome X → Event) op :
  (∀ df w0 o df' w, op df w0 = (o, df', w) →
     genuine env_class dqn datetime_now w0 ((ev o, w) : Entry')) →
  honest env_class dqn datetime_now env (call_env env ev op : Comp X).
Proof.
  intros Hev σ [df Hdf]%lookup_lt_is_Some_2. unfold call_env. rewrite Hdf.
  destruct (op df (world σ)) as [[o df'] w] eqn:Hop. cbn.
  rewrite length_insert. split_and!; try done. by eapply Hev.
Qed.

Lemma honest_step_body env s :
  honest env_class dqn datetime_now env
    (step_body env_class dqn batch_size env s).
Proof.
  unfold step_body.
  apply honest_bind; [by apply honest_call_model|intros a].
  apply honest_bind;
    [apply honest_call_env; intros ?????; cbn; by eauto|intros [[s' r] d]].
  apply honest_bind; [by apply honest_call_model|intros _].
  apply honest_bind; [apply honest_len_memory|intros n].
  apply honest_bind; [|intros _; apply honest_ret].
  destruct (batch_size <? n); [by apply honest_call_model|apply honest_ret].
Qed.

Lemma honest_step_loop env todo i s :
  honest env_class dqn datetime_now env
    (step_loop env_class dqn max_steps batch_size env todo i s).
Proof.
  revert i s. induction todo as [|todo IH]; intros i s; cbn [step_loop];
    [apply honest_ret|].
  apply honest_bind; [apply honest_print|intros _].
  apply honest_bind; [apply honest_step_body|intros [s' []]];
    [apply honest_ret|apply IH].
Qed.

Lemma honest_episode_loop env todo i :
  honest env_class dqn datetime_now env
    (episode_loop env_class dqn num_episodes max_steps batch_size env todo i).
Proof.
  revert i. induction todo as [|todo IH]; intros i; cbn [episode_loop];
    [apply honest_ret|].
  apply honest_bind; [apply honest_print|intros _].
  apply honest_bind;
    [apply honest_call_env; intros ?????; cbn; by eauto|intros s].
  apply honest_bind; [apply honest_step_loop|intros _]. apply IH.
Qed.

(** The calls of a whole run are genuine, and the run leaves the world of
    its last call; a run whose drop returned has allocated one frame. *)
Lemma train_model_with_genuine data σ :
  let r := train_model_with env_class dqn datetime_now num_episodes max_steps
             batch_size data σ in
  genuine_from env_class dqn datetime_now (world σ) (trace r) ∧
  world (final r) = last_world (world σ) (trace r) ∧
  length (frames (final r)) =
    match head (trace r) with
    | Some (EvDrop _ _ (Returned _), _) => S (length (frames σ))
    | _ => length (frames σ)
    end.
Proof.
  unfold train_model_with. cbn zeta. rewrite run_bind.
  destruct (frames σ !! data) as [df|] eqn:Hdata;
    [|unfold drop; by rewrite Hdata].
  rewrite (drop_run _ _ _ _ Hdata).
  destruct (DataFrame_.drop ["target"] df) as [df0|e];
    cbn [res final trace head]; [|done].
  rewrite run_bind. cbn [print res final trace app]. rewrite run_bind.
  cbn [frame_at res final trace app frames]. rewrite list_lookup_middle by done.
  rewrite run_bind.
  match goal with |- context [call_env ?l ?ev ?op ?σ1] =>
    assert (∃ o df' w1,
              call_env l ev op σ1 =
                mkRun o (mkStore (<[l := df']> (frames σ1)) w1 (console σ1))
                  [((ev o, w1) : Entry')] ∧
              genuine env_class dqn datetime_now (world σ) (ev o, w1))
      as (o & df' & w1 & -> & Hgenuine)
  end.
  { unfold call_env. cbn [frames world]. rewrite list_lookup_middle by done.
    match goal with |- context [TradingEnvironment env_class ?df ?w] =>
      destruct (TradingEnvironment env_class df w) as [[o df'] w1] eqn:Hop
    end.
    exists o, df', w1. split; [done|]. cbn. by eauto. }
  destruct o as [[]|e]; cbn [res final trace app head frames];
    [|rewrite length_insert, length_app; cbn; split_and!; (done || lia)].
  match goal with |- context [mbind ?k ?m ?σ1] =>
    assert (honest env_class dqn datetime_now (length (frames σ)) (mbind k m))
      as Hrest;
      [|destruct (Hrest σ1) as (Hg & Hw & Hn)]
  end.
  - apply honest_bind;
      [apply honest_call_env; intros ?????; cbn; by eauto|intros state0].
    apply honest_bind; [apply honest_print|intros _].
    apply honest_bind; [by apply honest_call_model|intros _].
    apply honest_bind; [apply honest_print|intros _].
    apply honest_bind; [apply honest_episode_loop|intros _].
    apply honest_bind; [apply honest_now|intros d].
    apply honest_bind; [by apply honest_call_model|intros _].
    apply honest_bind; [apply honest_print|intros _]. apply honest_ret.
  - cbn. rewrite length_insert, length_app. cbn. lia.
  - cbn [world frames] in *. split_and!.
    + split; [done|]. split; [done|]. exact Hg.
    + by rewrite Hw, !last_world_cons.
    + rewrite Hn, length_insert, length_app. cbn. lia.
Qed.

(** *** Frames *)

Local Ltac leaves_rest :=
  repeat first
    [ apply leaves_bind; [|intros ?]
    | apply leaves_ret
    | apply leaves_print
    | apply leaves_call_model
    | apply leaves_call_env; done
    | apply leaves_frame_at; done
    | apply leaves_now
    | apply leaves_episode_loop; done ].

(** No frame of the store is changed by a run, whatever the run is given
    and however it ends. *)
Lemma train_model_with_old_frames data σ l df :
  frames σ !! l = Some df →
  frames (final (train_model_with env_class dqn datetime_now num_episodes
                   max_steps batch_size data σ)) !! l = Some df.
Proof.
  intros Hl. unfold train_model_with. rewrite run_bind.
  destruct (frames σ !! data) as [df0|] eqn:Hdata;
    [|unfold drop; by rewrite Hdata].
  rewrite (drop_run _ _ _ _ Hdata).
  destruct (DataFrame_.drop ["target"] df0) as [df'|e]; cbn; [|done].
  assert (l ≠ length (frames σ)) as Hfresh
    by (apply lookup_lt_Some in Hl; lia).
  match goal with |- frames (final (?m ?σ')) !! _ = _ =>
    assert (leaves l m) as [-> _]
  end.
  { leaves_rest. }
  cbn. by apply lookup_app_l_Some.
Qed.

End RunReadings.

(** * Further properties of the path *)

Section Paths.

Lemma append_cancel_l s a b : s +:+ a = s +:+ b → a = b.
Proof.
  induction s as [|c s IH]; [done|].
  change (String c (s +:+ a) = String c (s +:+ b) → a = b).
  intros [= ?]. by apply IH.
Qed.

Lemma append_inj_length a1 a2 b1 b2 :
  String.length a1 = String.length a2 →
  a1 +:+ b1 = a2 +:+ b2 → a1 = a2 ∧ b1 = b2.
Proof.
  revert a2. induction a1 as [|c1 a1 IH]; intros [|c2 a2]; try done.
  intros [= Hlen].
  change (String c1 (a1 +:+ b1) = String c2 (a2 +:+ b2) →
          String c1 a1 = String c2 a2 ∧ b1 = b2).
  intros [= -> Happ]. destruct (IH _ Hlen Happ) as [-> ->]. done.
Qed.

Lemma length_append a b :
  String.length (a +:+ b) = String.length a + String.length b.
Proof.
  induction a as [|c a IH]; [done|].
  change (S (String.length (a +:+ b)) = S (String.length a + String.length b)).
  by rewrite IH.
Qed.

Lemma append_cancel_r s a b : a +:+ s = b +:+ s → a = b.
Proof.
  intros H. apply (append_inj_length a b s s); [|done].
  apply (f_equal String.length) in H. rewrite !length_append in H. lia.
Qed.

Lemma matches_length p s :
  matches p s = true → String.length s = String.length p.
Proof.
  revert s. induction p as [|c p IH]; intros [|c' s]; cbn; try done.
  intros [_ ?]%andb_true_iff. f_equal. by apply IH.
Qed.

(** The number a field of digits stands for. *)
Lemma two_digits_inj n m :
  n < 100 → m < 100 → zfill 2 (decimal n) = zfill 2 (decimal m) → n = m.
Proof.
  pose proof (below_forall
    (λ n, match NilZero.uint_of_string (zfill 2 (decimal n)) with
          | Some u => Nat.of_uint u =? n
          | None => false
          end)
    100 ltac:(vm_compute; reflexivity)) as Hread.
  intros Hn Hm Heq. apply Hread in Hn, Hm. cbv beta in Hn, Hm.
  rewrite Heq in Hn.
  destruct (NilZero.uint_of_string (zfill 2 (decimal m))); [|done].
  apply Nat.eqb_eq in Hn, Hm. congruence.
Qed.

Lemma four_digits_inj n m :
  n < 100 * 100 → m < 100 * 100 →
  zfill 4 (decimal n) = zfill 4 (decimal m) → n = m.
Proof.
  pose proof (below_forall
    (λ n, match NilZero.uint_of_string (zfill 4 (decimal n)) with
          | Some u => Nat.of_uint u =? n
          | None => false
          end)
    (100 * 100) ltac:(vm_compute; reflexivity)) as Hread.
  intros Hn Hm Heq. apply Hread in Hn, Hm. cbv beta in Hn, Hm.
  rewrite Heq in Hn.
  destruct (NilZero.uint_of_string (zfill 4 (decimal m))); [|done].
  apply Nat.eqb_eq in Hn, Hm. congruence.
Qed.

Lemma two_digits_length n : n < 100 → String.length (zfill 2 (decimal n)) = 2.
Proof. intros Hn. by apply two_digits, matches_length in Hn. Qed.

(** The time stamp determines the reading of the clock. *)
Lemma strftime_inj d1 d2 :
  valid_datetime d1 → valid_datetime d2 →
  strftime d1 = strftime d2 → d1 = d2.
Proof.
  intros (Hy1 & Hmo1 & Hd1 & Hh1 & Hmi1 & Hs1)
         (Hy2 & Hmo2 & Hd2 & Hh2 & Hmi2 & Hs2).
  unfold strftime. intros H.
  apply append_inj_length in H as [Hyear H];
    [|by rewrite (matches_length _ _ (four_digits _ Hy1)),
                 (matches_length _ _ (four_digits _ Hy2))].
  apply append_cancel_l in H.
  apply append_inj_length in H as [Hmonth H];
    [|rewrite !two_digits_length; lia].
  apply append_cancel_l in H.
  apply append_inj_length in H as [Hday H];
    [|rewrite !two_digits_length; lia].
  apply append_cancel_l in H.
  apply append_inj_length in H as [Hhour H];
    [|rewrite !two_digits_length; lia].
  apply append_cancel_l in H.
  apply append_inj_length in H as [Hminute H];
    [|rewrite !two_digits_length; lia].
  apply append_cancel_l in H.
  apply four_digits_inj in Hyear; [|lia..].
  apply two_digits_inj in Hmonth, Hday, Hhour, Hminute, H; [|lia..].
  destruct d1, d2; cbn in *. by subst.
Qed.

Lemma model_path_inj a b : model_path a = model_path b → a = b.
Proof. unfold model_path. by intros ?%append_cancel_l%append_cancel_r. Qed.

End Paths.

(** * Further properties of train_model *)

Section Properties.

Context {Feature Action Reward W : Type}.
Variable env_class : EnvironmentClass (list Feature) Action Reward W.
Variable dqn : DQNClass (list Feature) Action Reward W.
Variable datetime_now : W → datetime.

Abbreviation Entry' := (@Event Feature Action Reward * W)%type.

Lemma train_model_shape data σ :
  let r := train_model env_class dqn datetime_now data σ in
  train_trace env_class dqn datetime_now NUM_EPISODES MAX_STEPS BATCH_SIZE
    data (res r) (trace r).
Proof. apply train_model_with_shape. Qed.

(** X1.  What a run that returns has printed, after what the console held:
    the three set-up lines, then for each of the [NUM_EPISODES] episodes its
    header, numbered from 1, followed by one line per iteration begun,
    numbered from 1, and at the end the closing line.  No episode has more
    than [MAX_STEPS] step lines, and the step lines are as many as the calls
    of [act]. *)
Theorem train_model_progress_lines data σ path :
  let r := train_model env_class dqn datetime_now data σ in
  res r = Returned path →
  ∃ ks,
    length ks = NUM_EPISODES ∧ Forall (λ k, k ≤ MAX_STEPS) ks ∧
    console (final r) =
      console σ ++ progress_lines NUM_EPISODES MAX_STEPS ks ∧
    calls is_act (trace r) = sum_list ks.
Proof. apply train_model_with_console. Qed.

(** X2.  A run only adds lines to the console, and the closing line
    "model trained and saved" is among them exactly when the run returns:
    a run that raises, even from the save itself, has not printed it. *)
Theorem saved_line_iff_returned data σ :
  let r := train_model env_class dqn datetime_now data σ in
  ∃ lines,
    console (final r) = console σ ++ lines ∧
    (saved_line ∈ lines ↔ ∃ path, res r = Returned path).
Proof. apply finishes_train_model_with. Qed.

(** X3.  A run changes no frame of the store, whichever frame it is given
    and however it ends.  It allocates one frame at most, and exactly one
    when it returns. *)
Theorem stored_frames_untouched data σ :
  let r := train_model env_class dqn datetime_now data σ in
  (∀ l df, frames σ !! l = Some df → frames (final r) !! l = Some df) ∧
  length (frames σ) ≤ length (frames (final r)) ≤ S (length (frames σ)) ∧
  (∀ path, res r = Returned path →
           length (frames (final r)) = S (length (frames σ))).
Proof.
  intros r. subst r. unfold train_model.
  destruct (train_model_with_genuine env_class dqn datetime_now NUM_EPISODES
              MAX_STEPS BATCH_SIZE data σ) as (_ & _ & Hsize).
  split_and!.
  - intros l df. apply train_model_with_old_frames.
  - rewrite Hsize. repeat case_match; lia.
  - rewrite Hsize. repeat case_match; lia.
  - intros path Hres. rewrite Hsize.
    apply train_model_with_returned in Hres
      as (env & w0 & frame & w1 & state0 & w2 & w3 & t & w4 & w5 & -> & _).
    done.
Qed.

(** X4.  The model is saved only when training is over: [save_model] is the
    last call of the run, every call before it returned, the environment
    has been reset [NUM_EPISODES] times, and the call right before it is
    the reading of the clock its path is made from.  The clock is read
    nowhere else. *)
Theorem save_model_only_after_training data σ :
  let t := trace (train_model env_class dqn datetime_now data σ) in
  (∀ i path ret w,
     t !! i = Some (EvSaveModel path ret, w) →
     S i = length t ∧ all_returned (take i t) ∧
     calls is_reset t = NUM_EPISODES ∧
     ∃ j w4,
       i = S j ∧ t !! j = Some (EvNow (datetime_now w4), w4) ∧
       path = model_path (strftime (datetime_now w4))) ∧
  (∀ i d w, t !! i = Some (EvNow d, w) → S (S i) = length t).
Proof.
  intros t. pose proof (train_model_shape data σ) as Hshape.
  cbn zeta in Hshape. fold t in Hshape. split.
  - intros i path ret w Hi.
    destruct (train_trace_save_late _ _ _ _ _ _ _ _ _ _ _ Hshape Hi eq_refl)
      as (t0 & w4 & ret' & w5 & Ht & Hlen & Hret & Hresets).
    rewrite Ht in Hi |- *. rewrite lookup_app_r in Hi by done.
    destruct (i - length t0) as [|[|?]] eqn:Hoff; cbn in Hi; simplify_eq.
    assert (i = S (length t0)) as -> by lia.
    rewrite length_app, calls_app; cbn. split_and!; [lia| |lia|].
    + rewrite take_app_ge by lia.
      replace (S (length t0) - length t0) with 1 by lia. cbn.
      apply Forall_app. split; [done|by repeat constructor].
    + exists (length t0), w4. split_and!; [done| |done].
      rewrite lookup_app_r by lia. by rewrite Nat.sub_diag.
  - intros i d w Hi.
    destruct (train_trace_save_late _ _ _ _ _ _ _ _ _ _ _ Hshape Hi eq_refl)
      as (t0 & w4 & ret' & w5 & Ht & Hlen & _).
    rewrite Ht in Hi |- *. rewrite lookup_app_r in Hi by done.
    destruct (i - length t0) as [|[|?]] eqn:Hoff; cbn in Hi; simplify_eq.
    rewrite length_app; cbn. lia.
Qed.

(** X5.  Transitions are remembered as they were made.  The action the
    agent chose is the one the environment is stepped with next; what a
    step returned - next state, reward, termination flag - is remembered
    next, together with the state the agent acted on and the action; and
    nothing else is ever remembered. *)
Theorem transitions_remembered_as_made data σ :
  let t := trace (train_model env_class dqn datetime_now data σ) in
  (∀ i s a w1,
     t !! i = Some (EvAct s (Returned a), w1) →
     ∃ ret w2, t !! S i = Some (EvStep a ret, w2)) ∧
  (∀ i a s' r d w2,
     t !! i = Some (EvStep a (Returned (s', r, d)), w2) →
     ∃ j s w1 ret w3,
       i = S j ∧ t !! j = Some (EvAct s (Returned a), w1) ∧
       t !! S i = Some (EvRemember s a r s' d ret, w3)) ∧
  (∀ i s a r s' d ret w3,
     t !! i = Some (EvRemember s a r s' d ret, w3) →
     ∃ j w1 w2,
       i = S (S j) ∧ t !! j = Some (EvAct s (Returned a), w1) ∧
       t !! S j = Some (EvStep a (Returned (s', r, d)), w2)).
Proof.
  intros t. pose proof (train_model_shape data σ) as Hshape.
  cbn zeta in Hshape. fold t in Hshape.
  pose proof (train_trace_booked _ _ _ _ _ _ _ _ _ Hshape) as Hbooked.
  split_and!.
  - intros i s a w1 Hi. specialize (Hbooked i). unfold booked in Hbooked.
    by rewrite Hi in Hbooked.
  - intros i a s' r d w2 Hi. specialize (Hbooked i). unfold booked in Hbooked.
    rewrite Hi in Hbooked.
    destruct Hbooked as (j & s & w1 & -> & Hact & ret & w3 & Hremember).
    by exists j, s, w1, ret, w3.
  - intros i s a r s' d ret w3 Hi. specialize (Hbooked i).
    unfold booked in Hbooked. by rewrite Hi in Hbooked.
Qed.

(** X6.  The agent always acts on the state the environment showed last:
    the state given to [act] is the one returned by the latest reset or
    step before it.  After a step that reported termination there is no
    [act] until the environment has been reset. *)
Theorem agent_acts_on_latest_observation data σ i s ret w :
  let t := trace (train_model env_class dqn datetime_now data σ) in
  t !! i = Some (EvAct s ret, w) →
  latest_observation (take i t) = Some s.
Proof.
  intros t. pose proof (train_model_shape data σ) as Hshape.
  cbn zeta in Hshape. fold t in Hshape.
  by apply (train_trace_acts_on_latest _ _ _ _ _ _ None _ _ _ Hshape).
Qed.

(** X7.  Every run is bounded: it begins at most
    [NUM_EPISODES * MAX_STEPS] = 100 iterations and makes at most 416 calls
    in all, and however it ends it has made no more steps than acts, no
    more remembers than steps, and no more replays than remembers. *)
Theorem calls_bounded data σ :
  let t := trace (train_model env_class dqn datetime_now data σ) in
  calls is_replay t ≤ calls is_remember t ∧
  calls is_remember t ≤ calls is_step t ∧
  calls is_step t ≤ calls is_act t ∧
  calls is_act t ≤ 100 ∧
  length t ≤ 416.
Proof.
  intros t. pose proof (train_model_shape data σ) as Hshape.
  cbn zeta in Hshape. fold t in Hshape.
  apply train_trace_begun in Hshape as ((? & ? & ? & ?) & ?).
  by split_and!.
Qed.

(** X8.  The path tells the time the model was saved at: two runs that
    return the same path read the same date and time (to the second) from
    the clock, for dates with a four-digit year.  So runs that end in
    different seconds never write to the same file. *)
Theorem same_path_same_second data1 σ1 data2 σ2 path i1 d1 w1 i2 d2 w2 :
  let r1 := train_model env_class dqn datetime_now data1 σ1 in
  let r2 := train_model env_class dqn datetime_now data2 σ2 in
  res r1 = Returned path → res r2 = Returned path →
  trace r1 !! i1 = Some (EvNow d1, w1) →
  trace r2 !! i2 = Some (EvNow d2, w2) →
  valid_datetime d1 → valid_datetime d2 →
  d1 = d2.
Proof.
  intros r1 r2 Hres1 Hres2 Hnow1 Hnow2 Hvalid1 Hvalid2.
  assert (∀ data σ i d w,
            res (train_model env_class dqn datetime_now data σ)
            = Returned path →
            trace (train_model env_class dqn datetime_now data σ) !! i
            = Some (EvNow d, w) →
            path = model_path (strftime d)) as Hpath.
  { clear. intros data σ i d w Hres Hi. unfold train_model in *.
    apply train_model_with_returned in Hres
      as (env & w0 & frame & w1 & state0 & w2 & w3 & t & w4 & w5 &
          Htrace & Ht & ->).
    rewrite Htrace in Hi. apply episodes_trace_in_loop in Ht.
    destruct i as [|[|[|[|i]]]]; cbn in Hi; simplify_eq.
    apply lookup_app_Some in Hi as [Hi|[_ Hi]].
    - eapply Forall_lookup_1 in Ht; [|done]. done.
    - destruct (i - length t) as [|[|?]]; cbn in Hi; by simplify_eq. }
  apply strftime_inj; [done..|]. apply model_path_inj.
  by rewrite <-(Hpath _ _ _ _ _ Hres1 Hnow1), <-(Hpath _ _ _ _ _ Hres2 Hnow2).
Qed.

(** X9.  The loops over empty ranges.  With no episode to run the
    simulation makes no call, and the model is saved as it was built: the
    run is the four set-up calls and the two closing calls.  With no step
    allowed the environment is still reset once per episode, but the agent
    never acts and nothing is remembered or replayed. *)
Theorem empty_loops_still_save :
  (∀ max_steps batch_size data σ path,
     let r := train_model_with env_class dqn datetime_now 0 max_steps
                batch_size data σ in
     res r = Returned path →
     calls in_loop (trace r) = 0 ∧ calls is_save_model (trace r) = 1 ∧
     length (trace r) = 6) ∧
  (∀ num_episodes batch_size data σ path,
     let r := train_model_with env_class dqn datetime_now num_episodes 0
                batch_size data σ in
     res r = Returned path →
     calls is_reset (trace r) = num_episodes ∧
     calls is_act (trace r) = 0 ∧ calls is_save_model (trace r) = 1 ∧
     length (trace r) = 6 + num_episodes).
Proof.
  split.
  - intros max_steps batch_size data σ path r Hres. subst r.
    apply train_model_with_returned in Hres
      as (env & w0 & frame & w1 & state0 & w2 & w3 & t & w4 & w5 &
          -> & Ht & _).
    by inversion Ht.
  - intros num_episodes batch_size data σ path r Hres. subst r.
    apply train_model_with_returned in Hres
      as (env & w0 & frame & w1 & state0 & w2 & w3 & t & w4 & w5 &
          -> & Ht & _).
    pose proof (episodes_trace_in_loop _ _ _ _ _ _ _ Ht) as Hloop.
    destruct (episodes_trace_begun _ _ _ _ _ _ _ Ht) as [(_ & _ & _ & Hacts) Hlen].
    apply episodes_trace_split in Ht as (episodes & -> & <- & Heps).
    pose proof (calls_reset_concat _ _ _ _ _ Heps) as Hresets.
    assert (calls is_reset (concat episodes) ≤ length (concat episodes))
      by apply List.filter_length_le.
    assert (calls is_save_model (concat episodes) = 0) as Hsave.
    { apply calls_none. eapply Forall_impl; [exact Hloop|]. by intros [[] ?]. }
    rewrite !calls_app, !length_app. unfold calls in *. cbn. lia.
Qed.

(** The trace is faithful.  The calls of a run follow one another on one
    world: every call is what its operation does in the world the call
    before it left - the first call in the world the run started in - and
    the run ends in the world its last call left.  The controller itself
    changes nothing in between; in particular the clock is read in the
    world the last call of the simulation left. *)
Theorem calls_are_genuine data σ :
  let r := train_model env_class dqn datetime_now data σ in
  (∀ x, trace r !! 0 = Some x →
        genuine env_class dqn datetime_now (world σ) x) ∧
  (∀ i x y, trace r !! i = Some x → trace r !! S i = Some y →
            genuine env_class dqn datetime_now x.2 y) ∧
  world (final r) = last_world (world σ) (trace r).
Proof.
  intros r. subst r. unfold train_model.
  destruct (train_model_with_genuine env_class dqn datetime_now NUM_EPISODES
              MAX_STEPS BATCH_SIZE data σ) as (Hgenuine & Hworld & _).
  split_and!; [| |done].
  - intros x. by apply genuine_from_head.
  - intros i x y. by eapply genuine_from_lookup.
Qed.

End Properties.

(** * The further properties on the stub collaborators *)

Section MoreWitnesses.

Import Stub.

Lemma train_model_progress_lines_witness :
  res full_run = Returned
    "src/learning/trained_models/dqn_model_2024-03-05_14-01-50.h5" ∧
  ∃ ks, length ks = 10 ∧
        console (final full_run) = progress_lines 10 10 ks.
Proof.
  split; [vm_compute; reflexivity|].
  destruct (train_model_progress_lines (environment 100) (agent 2000 false)
              clock 0 (store market) _ ltac:(vm_compute; reflexivity))
    as (ks & Hlen & _ & Hlines & _).
  exists ks. split; [exact Hlen|exact Hlines].
Defined.

Lemma stored_frames_untouched_witness :
  res full_run = Returned
    "src/learning/trained_models/dqn_model_2024-03-05_14-01-50.h5" ∧
  frames (final full_run) !! 0 = Some market ∧
  length (frames (final full_run)) = 2.
Proof.
  split; [vm_compute; reflexivity|].
  destruct (stored_frames_untouched (environment 100) (agent 2000 false)
              clock 0 (store market)) as (Hold & _ & Hnew).
  split; [exact (Hold 0 market eq_refl)|].
  exact (Hnew _ ltac:(vm_compute; reflexivity)).
Defined.

Lemma save_model_only_after_training_witness :
  length (trace full_run) = 352 ∧ calls is_reset (trace full_run) = 10.
Proof.
  destruct (save_model_only_after_training (environment 100)
              (agent 2000 false) clock 0 (store market)) as [Hsave _].
  edestruct (Hsave 351) as (Hlast & _ & Hresets & _);
    [vm_compute; reflexivity|].
  split; [symmetry; exact Hlast|exact Hresets].
Defined.

Lemma transitions_remembered_as_made_witness :
  ∃ j w1 w2,
    7 = S (S j) ∧
    trace full_run !! j = Some (EvAct [100%Z; 7%Z] (Returned 2), w1) ∧
    trace full_run !! S j
    = Some (EvStep 2 (Returned ([102%Z; 9%Z], 2%Z, false)), w2).
Proof.
  destruct (transitions_remembered_as_made (environment 100)
              (agent 2000 false) clock 0 (store market)) as (_ & _ & Hremember).
  eapply (Hremember 7). vm_compute. reflexivity.
Defined.

Lemma agent_acts_on_latest_observation_witness :
  latest_observation (take 5 (trace full_run)) = Some [100%Z; 7%Z].
Proof.
  eapply (agent_acts_on_latest_observation (environment 100)
            (agent 2000 false) clock 0 (store market) 5).
  vm_compute. reflexivity.
Defined.

Lemma same_path_same_second_witness :
  ∃ d1 w1 d2 w2,
    trace full_run !! 350 = Some (EvNow d1, w1) ∧
    trace nan_run !! 350 = Some (EvNow d2, w2) ∧
    d1 = d2.
Proof.
  eexists _, _, _, _. split; [vm_compute; reflexivity|].
  split; [vm_compute; reflexivity|].
  eapply (same_path_same_second (environment 100) (agent 2000 false) clock
            0 (store market) 0 (store market_nan_target) _ 350 _ _ 350).
  - vm_compute. reflexivity.
  - vm_compute. reflexivity.
  - vm_compute. reflexivity.
  - vm_compute. reflexivity.
  - unfold valid_datetime; vm_compute; lia.
  - unfold valid_datetime; vm_compute; lia.
Defined.

Lemma empty_loops_still_save_witness :
  length (trace (train_model_with (environment 100) (agent 2000 false) clock
                   0 10 64 0 (store market))) = 6 ∧
  calls is_act (trace (train_model_with (environment 100) (agent 2000 false)
                         clock 3 0 64 0 (store market))) = 0.
Proof.
  destruct (empty_loops_still_save (environment 100) (agent 2000 false) clock)
    as [Hepisodes Hsteps].
  split.
  - edestruct (Hepisodes 10 64 0 (store market)) as (_ & _ & Hlen);
      [vm_compute; reflexivity|exact Hlen].
  - edestruct (Hsteps 3 64 0 (store market)) as (_ & Hacts & _);
      [vm_compute; reflexivity|exact Hacts].
Defined.

End MoreWitnesses.
